(** * Reliability estimates: split-half and test-retest

    A shallow embedding of [reliability/reliability.py] and the proofs of
    its specification.  Floating-point numbers are idealised as real
    numbers extended with one absorbing element that stands for every
    non-finite IEEE value (NaN and the two infinities); Python exceptions
    are an explicit error result; the global random generator consumed by
    [numpy.random.shuffle] is an explicit stream of row permutations. *)

From Stdlib Require Import String.
From Stdlib Require Import Reals Lra Lia List ZArith Bool Permutation.
Import ListNotations.

Open Scope R_scope.

(* ================================================================== *)
(** ** Python results: a value or a raised exception *)

(** The two messages of the [raise Exception(...)] statements of
    [split_half], with the value that is formatted into each. *)
Inductive message : Type :=
| ExpectedNSplits (n_splits : Z)
| ModeNotSupported (mode : string).

Inductive exn : Type :=
| Exception (msg : message)
| ValueError
| ZeroDivisionError
| UnboundLocalError.

Inductive outcome (A : Type) : Type :=
| Return (a : A)
| Raise (e : exn).

Arguments Return {A} a.
Arguments Raise {A} e.

Definition bind {A B : Type} (c : outcome A) (k : A -> outcome B) : outcome B :=
  match c with
  | Return a => k a
  | Raise e => Raise e
  end.

Notation "x <- c ;; k" := (bind c (fun x => k))
  (at level 61, c at next level, right associativity).

(* ================================================================== *)
(** ** Numbers

    [Fin r] is the finite float of value [r]; [Undef] is any non-finite
    float.  Every operation is strict in [Undef]; a division whose divisor
    is zero gives [Undef] (numpy gives NaN or an infinity there and only
    warns).  No operation of the program divides by a value that can be
    infinite, so merging NaN and the infinities loses nothing. *)

Inductive num : Type :=
| Fin (r : R)
| Undef.

Definition lift2 (f : R -> R -> R) (a b : num) : num :=
  match a, b with
  | Fin x, Fin y => Fin (f x y)
  | _, _ => Undef
  end.

Definition nadd : num -> num -> num := lift2 Rplus.
Definition nsub : num -> num -> num := lift2 Rminus.
Definition nmul : num -> num -> num := lift2 Rmult.

Definition ndiv (a b : num) : num :=
  match a, b with
  | Fin x, Fin y => if Req_EM_T y 0 then Undef else Fin (x / y)
  | _, _ => Undef
  end.

Definition nabs (a : num) : num :=
  match a with
  | Fin x => Fin (Rabs x)
  | Undef => Undef
  end.

Definition nsqrt (a : num) : num :=
  match a with
  | Fin x => if Rlt_dec x 0 then Undef else Fin (sqrt x)
  | Undef => Undef
  end.

(** [x ** 2] *)
Definition npow2 (a : num) : num := nmul a a.

(** Division of two Python scalars ([int] or [float]): a zero divisor
    raises, where numpy's scalars only warn. *)
Definition py_div (a b : R) : outcome R :=
  if Req_EM_T b 0 then Raise ZeroDivisionError else Return (a / b).

(* ================================================================== *)
(** ** The input array

    A two-dimensional array of real numbers: [rows] holds the [M] rows and
    [ncols] is [N], which an array has even when it has no row. *)

Record ndarray : Type := mk_ndarray {
  ncols : nat;
  rows : list (list R)
}.

Definition shape (x : ndarray) : nat * nat := (length (rows x), ncols x).

(** Every row has [N] entries. *)
Definition well_formed (x : ndarray) : Prop :=
  Forall (fun row => length row = ncols x) (rows x).

(** The entries as floats. *)
Definition values (x : ndarray) : list (list num) := map (map Fin) (rows x).

(** [x[i,:]] *)
Definition row (i : nat) (x : ndarray) : list num := nth i (values x) [].

(* ================================================================== *)
(** ** The numpy operations the program calls *)

Module numpy.

(** [numpy.sum] of a one-dimensional array. *)
Definition sum (v : list num) : num := fold_right nadd (Fin 0) v.

(** [numpy.mean] of a one-dimensional array. *)
Definition mean (v : list num) : num :=
  ndiv (sum v) (Fin (INR (length v))).

Definition column (j : nat) (a : list (list num)) : list num :=
  map (fun r => nth j r Undef) a.

(** [numpy.sum(a, axis=0)] of an array with [n] columns. *)
Definition sum_axis0 (n : nat) (a : list (list num)) : list num :=
  map (fun j => sum (column j a)) (seq 0 n).

(** [numpy.mean(a, axis=0)] of an array with [n] columns. *)
Definition mean_axis0 (n : nat) (a : list (list num)) : list num :=
  map (fun j => mean (column j a)) (seq 0 n).

(** [numpy.std]: the square root of the mean of the squared absolute
    deviations from the mean (no degrees-of-freedom correction). *)
Definition std (v : list num) : num :=
  nsqrt (mean (map (fun e => npow2 (nabs (nsub e (mean v)))) v)).

Definition sqrt (a : num) : num := nsqrt a.

(** Elementwise operations and broadcasting of a scalar. *)
Fixpoint zip_with (f : num -> num -> num) (u v : list num) : list num :=
  match u, v with
  | a :: u', b :: v' => f a b :: zip_with f u' v'
  | _, _ => []
  end.

Definition add (u v : list num) : list num := zip_with nadd u v.
Definition multiply (u v : list num) : list num := zip_with nmul u v.
Definition sub_scalar (u : list num) (m : num) : list num :=
  map (fun e => nsub e m) u.
Definition square (u : list num) : list num := map npow2 u.

(** [numpy.ones((m, n), dtype=int)] and [numpy.zeros(n, dtype=float)]. *)
Definition ones (m n : nat) : list (list Z) := repeat (repeat 1%Z n) m.
Definition zeros (n : nat) : list num := repeat (Fin 0) n.

(** [a[k:, :] = v] *)
Definition fill_from (k : nat) (v : Z) (a : list (list Z)) : list (list Z) :=
  firstn k a ++ map (map (fun _ => v)) (skipn k a).

(** [a[i] = v] on a one-dimensional array, for [i] in range. *)
Fixpoint setitem (a : list num) (i : nat) (v : num) : list num :=
  match a, i with
  | [], _ => []
  | _ :: a', O => v :: a'
  | e :: a', S i' => e :: setitem a' i' v
  end.

(** [x[mask == lab]]: the entries of [x] at the places where the label
    array holds [lab], in row-major order, as a one-dimensional array. *)
Fixpoint mask_row (xr : list num) (hr : list Z) (lab : Z) : list num :=
  match xr, hr with
  | e :: xr', l :: hr' =>
      if (l =? lab)%Z then e :: mask_row xr' hr' lab
      else mask_row xr' hr' lab
  | _, _ => []
  end.

Fixpoint mask_select (x : list (list num)) (h : list (list Z)) (lab : Z)
  : list num :=
  match x, h with
  | xr :: x', hr :: h' => mask_row xr hr lab ++ mask_select x' h' lab
  | _, _ => []
  end.

Fixpoint chunks (r c : nat) (flat : list num) : list (list num) :=
  match r with
  | O => []
  | S r' => firstn c flat :: chunks r' c (skipn c flat)
  end.

(** [numpy.reshape(flat, (r, c))]: fails unless the sizes agree. *)
Definition reshape (flat : list num) (shp : nat * nat)
  : outcome (list (list num)) :=
  let '(r, c) := shp in
  if (length flat =? r * c)%nat then Return (chunks r c flat)
  else Raise ValueError.

Module random.

(** [numpy.random.shuffle(a)] permutes the rows of [a] in place.  The
    permutation the generator draws is the argument [p]: row [i] of the
    result is row [p_i] of [a]. *)
Definition shuffle {A : Type} (p : list nat) (a : list (list A))
  : list (list A) :=
  map (fun i => nth i a []) p.

End random.

End numpy.

(** A draw of the generator for an array of [m] rows is a permutation of
    the row indices. *)
Definition valid_draw (m : nat) (p : list nat) : Prop :=
  Permutation p (seq 0 m).

(* ================================================================== *)
(** ** scipy.stats.pearsonr

    The library function is not part of the repository; this is its
    documented definition, the Pearson product-moment correlation
    coefficient: the sum of the products of the deviations from the means
    over the square root of the product of the sums of their squares.
    It is not a number when a vector is constant. *)

Definition pearsonr (x y : list num) : num :=
  let mx := numpy.mean x in
  let my := numpy.mean y in
  let xm := numpy.sub_scalar x mx in
  let ym := numpy.sub_scalar y my in
  let r_num := numpy.sum (numpy.multiply xm ym) in
  let r_den := nsqrt (nmul (numpy.sum (numpy.square xm))
                           (numpy.sum (numpy.square ym))) in
  ndiv r_num r_den.

(* ================================================================== *)
(** ** split_half *)

Definition allowed_modes : list string :=
  ["correlation"%string; "spearman-brown"%string].

Definition mode_in (mode : string) (l : list string) : bool :=
  existsb (String.eqb mode) l.

(** The loop state: the label array [halves] and the sample array [r_]. *)
Definition loop_state : Type := (list (list Z) * list num)%type.

(** One iteration of [for i in range(n_splits)]. *)
Definition trial (rng : nat -> list nat) (x : ndarray) (mode : string)
    (i : nat) (st : loop_state) : outcome loop_state :=
  let '(n_observations, n_subjects) := shape x in
  let n_half_1 := (n_observations / 2)%nat in
  let n_half_2 := (n_observations - n_half_1)%nat in
  let '(halves, r_) := st in
  let halves := numpy.random.shuffle (rng i) halves in
  x_1 <- numpy.reshape (numpy.mask_select (values x) halves 1)
                       (n_half_1, n_subjects) ;;
  x_2 <- numpy.reshape (numpy.mask_select (values x) halves 2)
                       (n_half_2, n_subjects) ;;
  let m_1 := numpy.mean_axis0 n_subjects x_1 in
  let m_2 := numpy.mean_axis0 n_subjects x_2 in
  let pearson_r := pearsonr m_1 m_2 in
  if (mode =? "correlation")%string then
    Return (halves, numpy.setitem r_ i pearson_r)
  else if (mode =? "spearman-brown")%string then
    Return (halves,
            numpy.setitem r_ i
              (ndiv (nmul (Fin 2) pearson_r) (nadd (Fin 1) pearson_r)))
  else Return (halves, r_).

Fixpoint for_range (body : nat -> loop_state -> outcome loop_state)
    (range : list nat) (st : loop_state) : outcome loop_state :=
  match range with
  | [] => Return st
  | i :: range' => st' <- body i st ;; for_range body range' st'
  end.

(** The label array before the loop: ones, then twos from row
    [n_half_1] on. *)
Definition initial_halves (n_observations n_subjects : nat) : list (list Z) :=
  numpy.fill_from (n_observations / 2) 2%Z
    (numpy.ones n_observations n_subjects).

(** Lines 51 to 84: the body of [split_half] from [x.shape] to the end of
    the loop; the result is the array [r_] of the trial samples. *)
Definition split_half_samples (rng : nat -> list nat) (x : ndarray)
    (n_splits : Z) (mode : string) : outcome (list num) :=
  let '(n_observations, n_subjects) := shape x in
  let halves := initial_halves n_observations n_subjects in
  let r_ := numpy.zeros (Z.to_nat n_splits) in
  st <- for_range (trial rng x mode) (seq 0 (Z.to_nat n_splits)) (halves, r_) ;;
  Return (snd st).

(** [split_half(x, n_splits, mode)] with the generator's draws [rng]:
    [rng i] is the permutation of the [i]-th call of the shuffle. *)
Definition split_half (rng : nat -> list nat) (x : ndarray) (n_splits : Z)
    (mode : string) : outcome (num * num) :=
  if (n_splits <? 1)%Z then Raise (Exception (ExpectedNSplits n_splits))
  else if negb (mode_in mode allowed_modes) then
    Raise (Exception (ModeNotSupported mode))
  else
    r_ <- split_half_samples rng x n_splits mode ;;
    let r := numpy.mean r_ in
    let sem := ndiv (numpy.std r_) (numpy.sqrt (Fin (IZR n_splits))) in
    Return (r, sem).

(* ================================================================== *)
(** ** test_retest *)

Definition test_retest (x : ndarray) (mode : string) : outcome num :=
  let '(n_measurements, n_subjects) := shape x in
  if (mode =? "fisher")%string && (n_measurements =? 2)%nat then
    let m := ndiv (numpy.sum (numpy.add (row 0 x) (row 1 x)))
                  (Fin (2 * INR n_subjects)) in
    let var :=
      ndiv (nadd (numpy.sum (numpy.square (numpy.sub_scalar (row 0 x) m)))
                 (numpy.sum (numpy.square (numpy.sub_scalar (row 1 x) m))))
           (Fin (2 * INR n_subjects)) in
    let r :=
      ndiv (numpy.sum (numpy.multiply (numpy.sub_scalar (row 0 x) m)
                                      (numpy.sub_scalar (row 1 x) m)))
           (nmul (Fin (INR n_subjects)) var) in
    Return r
  else if (mode =? "harris")%string then
    let m := ndiv (numpy.sum (numpy.sum_axis0 n_subjects (values x)))
                  (Fin (INR (n_measurements * n_subjects))) in
    let var :=
      ndiv (numpy.sum
              (numpy.sum_axis0 n_subjects
                 (map (fun r => numpy.square (numpy.sub_scalar r m))
                      (values x))))
           (Fin (INR (n_measurements * n_subjects))) in
    a <- py_div (INR n_measurements) (INR n_measurements - 1) ;;
    let b :=
      ndiv (numpy.sum
              (numpy.square
                 (numpy.sub_scalar (numpy.mean_axis0 n_subjects (values x)) m)))
           (Fin (INR n_subjects)) in
    c <- py_div 1 (INR n_measurements - 1) ;;
    let r := nsub (nmul (Fin a) (ndiv b var)) (Fin c) in
    Return r
  else Raise UnboundLocalError.

(* ================================================================== *)
(** ** The specification's quantities

    The definitions below follow the words of the specification; the
    theorems compare them with the program above. *)

Definition Rsum (l : list R) : R := fold_right Rplus 0 l.

(** All [M*N] entries of the matrix. *)
Definition entries (x : ndarray) : list R := concat (rows x).

(** The sum of all entries divided by [M*N]. *)
Definition pooled_mean (x : ndarray) : R :=
  Rsum (entries x) / INR (length (rows x) * ncols x).

(** The sum of the squared deviations of all entries from the pooled
    mean, divided by [M*N]. *)
Definition pooled_var (x : ndarray) : R :=
  Rsum (map (fun v => (v - pooled_mean x) * (v - pooled_mean x)) (entries x))
  / INR (length (rows x) * ncols x).

(** The mean of the [M] measurements of subject [j]. *)
Definition subject_mean (x : ndarray) (j : nat) : R :=
  Rsum (map (fun r => nth j r 0) (rows x)) / INR (length (rows x)).

(** Harris's [a], [b] and [c]. *)
Definition harris_a (x : ndarray) : R :=
  INR (length (rows x)) / (INR (length (rows x)) - 1).

Definition harris_b (x : ndarray) : R :=
  Rsum (map (fun j => (subject_mean x j - pooled_mean x)
                      * (subject_mean x j - pooled_mean x))
            (seq 0 (ncols x)))
  / INR (ncols x).

Definition harris_c (x : ndarray) : R := 1 / (INR (length (rows x)) - 1).

(** [a * (b / var) - c] *)
Definition harris_formula (x : ndarray) : num :=
  nsub (nmul (Fin (harris_a x)) (ndiv (Fin (harris_b x)) (Fin (pooled_var x))))
       (Fin (harris_c x)).

(** The half-assignment vector: [floor(M/2)] entries tagged half 1 and
    the remainder tagged half 2. *)
Definition initial_labels (m : nat) : list Z :=
  repeat 1%Z (m / 2) ++ repeat 2%Z (m - m / 2).

(** The vector permuted by a draw. *)
Definition permute (p : list nat) (labels : list Z) : list Z :=
  map (fun i => nth i labels 0%Z) p.

(** The vector after [k] shuffles; trial [i] uses [labels_after rng m (S i)]. *)
Fixpoint labels_after (rng : nat -> list nat) (m k : nat) : list Z :=
  match k with
  | O => initial_labels m
  | S k' => permute (rng k') (labels_after rng m k')
  end.

(** The label matrix in which every subject column carries the vector. *)
Definition broadcast (n : nat) (labels : list Z) : list (list Z) :=
  map (fun l => repeat l n) labels.

(** The rows that carry label [lab], in their order. *)
Fixpoint select_rows {A : Type} (labels : list Z) (lab : Z) (a : list A)
  : list A :=
  match labels, a with
  | l :: labels', r :: a' =>
      if (l =? lab)%Z then r :: select_rows labels' lab a'
      else select_rows labels' lab a'
  | _, _ => []
  end.

(** The row group of half [lab] in trial [i]. *)
Definition group (rng : nat -> list nat) (x : ndarray) (i : nat) (lab : Z)
  : list (list num) :=
  select_rows (labels_after rng (length (rows x)) (S i)) lab (values x).

(** What the program computes in trial [i]: its [pearsonr] of its column
    means of the two groups. *)
Definition trial_pearson (rng : nat -> list nat) (x : ndarray) (i : nat) : num :=
  pearsonr (numpy.mean_axis0 (ncols x) (group rng x i 1%Z))
           (numpy.mean_axis0 (ncols x) (group rng x i 2%Z)).

(** Step e: the raw coefficient, or its Spearman-Brown correction. *)
Definition trial_sample (mode : string) (r : num) : num :=
  if (mode =? "correlation")%string then r
  else ndiv (nmul (Fin 2) r) (nadd (Fin 1) r).

(** [numpy.mean] with the divisor written as [n]. *)
Definition arithmetic_mean (n : Z) (samples : list num) : num :=
  ndiv (numpy.sum samples) (Fin (IZR n)).

(** [numpy.std] with the divisor written as [n] and no absolute value. *)
Definition population_std (n : Z) (samples : list num) : num :=
  nsqrt (ndiv (numpy.sum
                 (map (fun s => nmul (nsub s (arithmetic_mean n samples))
                                     (nsub s (arithmetic_mean n samples)))
                      samples))
              (Fin (IZR n))).

(** The program's [sem] in that form. *)
Definition standard_error (n : Z) (samples : list num) : num :=
  ndiv (population_std n samples) (nsqrt (Fin (IZR n))).

(** The vector splits [m] observations: [floor(m/2)] entries tagged
    half 1 and the remainder tagged half 2. *)
Definition half_labelled (m : nat) (labels : list Z) : Prop :=
  length labels = m
  /\ count_occ Z.eq_dec labels 1%Z = (m / 2)%nat
  /\ count_occ Z.eq_dec labels 2%Z = (m - m / 2)%nat.

(** The array [halves] of the program after [k] calls of the shuffle. *)
Fixpoint halves_after (rng : nat -> list nat) (m n k : nat) : list (list Z) :=
  match k with
  | O => initial_halves m n
  | S k' => numpy.random.shuffle (rng k') (halves_after rng m n k')
  end.

(** The [n_splits] trial samples. *)
Definition trial_samples (rng : nat -> list nat) (x : ndarray) (n_splits : Z)
    (mode : string) : list num :=
  map (fun i => trial_sample mode (trial_pearson rng x i))
      (seq 0 (Z.to_nat n_splits)).

(** A call raises. *)
Definition raises {A : Type} (o : outcome A) : Prop := exists e, o = Raise e.

(** A float that is a number. *)
Definition defined (a : num) : Prop := exists r, a = Fin r.

(* ================================================================== *)
(** ** Example data *)

(** The two-occasion dataset of the specification (M = 2, N = 3). *)
Definition example_x : ndarray :=
  mk_ndarray 3 [[10; 12; 14]; [11; 13; 16]].

(** Two subjects whose two observations are equal. *)
Definition constant_x : ndarray := mk_ndarray 2 [[0; 0]; [0; 0]].

(** Two subjects whose two observations are opposed. *)
Definition opposed_x : ndarray := mk_ndarray 2 [[0; 1]; [1; 0]].

(** A generator that always draws the identity permutation of two rows. *)
Definition identity_draws : nat -> list nat := fun _ => [0%nat; 1%nat].

(* ================================================================== *)
(** ** Fisher's two-measurement quantities *)

(** The sum over the subjects of the products of the deviations of the
    two measurements from the pooled mean. *)
Definition fisher_cross (x : ndarray) : R :=
  Rsum (map (fun p => (fst p - pooled_mean x) * (snd p - pooled_mean x))
            (combine (nth 0 (rows x) []) (nth 1 (rows x) []))).

(** [sum((x0 - m) * (x1 - m)) / (N * var)] *)
Definition fisher_formula (x : ndarray) : num :=
  ndiv (Fin (fisher_cross x)) (Fin (INR (ncols x) * pooled_var x)).

(* ================================================================== *)
(** ** The trials of the specification, over the real entries

    Steps b to d of the algorithm, written with sums of real numbers
    only: none of the definitions below calls an operation of the
    program. *)

(** Step b: the rows of [x] tagged [lab] in trial [i], in their order. *)
Definition row_group (rng : nat -> list nat) (x : ndarray) (i : nat) (lab : Z)
  : list (list R) :=
  select_rows (labels_after rng (length (rows x)) (S i)) lab (rows x).

(** Step c: for each of the [n] subjects, the mean over the rows of a
    group. *)
Definition subject_means (n : nat) (g : list (list R)) : list R :=
  map (fun j => Rsum (map (fun r => nth j r 0) g) / INR (length g)) (seq 0 n).

Definition vector_mean (u : list R) : R := Rsum u / INR (length u).

(** Step d: the Pearson product-moment correlation coefficient of two
    vectors: the sum of the products of their deviations from their means
    over the square root of the product of the sums of the squared
    deviations. *)
Definition pearson_correlation (u v : list R) : num :=
  ndiv
    (Fin (Rsum (map (fun p => (fst p - vector_mean u) * (snd p - vector_mean v))
                    (combine u v))))
    (Fin (sqrt (Rsum (map (fun a => (a - vector_mean u) * (a - vector_mean u)) u)
                * Rsum (map (fun b => (b - vector_mean v) * (b - vector_mean v)) v)))).

(** The correlation of trial [i]: between the subject means of its two
    groups. *)
Definition trial_correlation (rng : nat -> list nat) (x : ndarray) (i : nat)
  : num :=
  pearson_correlation (subject_means (ncols x) (row_group rng x i 1))
                      (subject_means (ncols x) (row_group rng x i 2)).




(* ================================================================== *)
(** ** Arithmetic of [num] *)

Lemma ndiv_Fin (a b : R) : b <> 0 -> ndiv (Fin a) (Fin b) = Fin (a / b).
Proof.
  intros Hb. unfold ndiv. destruct (Req_EM_T b 0); [contradiction | reflexivity].
Qed.

Lemma ndiv_zero (a : num) (b : R) : b = 0 -> ndiv a (Fin b) = Undef.
Proof.
  intros Hb. destruct a; simpl; [|reflexivity].
  destruct (Req_EM_T b 0); [reflexivity | contradiction].
Qed.

Lemma ndiv_Fin_inv (a b : num) (q : R) :
  ndiv a b = Fin q -> exists u v, a = Fin u /\ b = Fin v /\ v <> 0 /\ q = u / v.
Proof.
  destruct a as [u|], b as [v|]; simpl; try discriminate.
  destruct (Req_EM_T v 0); [discriminate|].
  intros [= <-]. exists u, v. auto.
Qed.

Lemma nsqrt_Fin (a : R) : 0 <= a -> nsqrt (Fin a) = Fin (sqrt a).
Proof.
  intros Ha. unfold nsqrt. destruct (Rlt_dec a 0); [lra | reflexivity].
Qed.

Lemma nsqrt_Fin_inv (a : num) (q : R) :
  nsqrt a = Fin q -> exists u, a = Fin u /\ 0 <= u /\ q = sqrt u.
Proof.
  destruct a as [u|]; simpl; [|discriminate].
  destruct (Rlt_dec u 0); [discriminate|].
  intros [= <-]. exists u. repeat split; lra.
Qed.

Lemma py_div_ok (a b : R) : b <> 0 -> py_div a b = Return (a / b).
Proof.
  intros Hb. unfold py_div. destruct (Req_EM_T b 0); [contradiction | reflexivity].
Qed.

Lemma sum_map_Fin (l : list R) : numpy.sum (map Fin l) = Fin (Rsum l).
Proof.
  unfold numpy.sum.
  induction l as [|a l IH]; simpl; [reflexivity|].
  rewrite IH. reflexivity.
Qed.

Lemma sum_Fin_inv (v : list num) (s : R) :
  numpy.sum v = Fin s -> exists l, v = map Fin l /\ s = Rsum l.
Proof.
  unfold numpy.sum.
  revert s. induction v as [|a v IH]; simpl; intros s H.
  - exists []. injection H as <-. auto.
  - destruct a as [r|]; [|discriminate].
    destruct (fold_right nadd (Fin 0) v) as [t|] eqn:E; [|discriminate].
    destruct (IH t eq_refl) as (l & -> & ->).
    exists (r :: l). simpl in H. injection H as <-. auto.
Qed.

Lemma sum_Undef (v : list num) : In Undef v -> numpy.sum v = Undef.
Proof.
  intros H. destruct (numpy.sum v) as [s|] eqn:E; [|reflexivity].
  destruct (sum_Fin_inv _ _ E) as (l & -> & _).
  apply in_map_iff in H. destruct H as (r & Hr & _). discriminate.
Qed.

Lemma Rsum_app (l1 l2 : list R) : Rsum (l1 ++ l2) = Rsum l1 + Rsum l2.
Proof.
  induction l1 as [|a l1 IH]; simpl; [lra | rewrite IH; lra].
Qed.

Lemma Rsum_map_plus {A : Type} (f g : A -> R) (l : list A) :
  Rsum (map (fun a => f a + g a) l) = Rsum (map f l) + Rsum (map g l).
Proof.
  induction l as [|a l IH]; simpl; [lra | rewrite IH; lra].
Qed.

Lemma Rsum_map_nonneg {A : Type} (f : A -> R) (l : list A) :
  (forall a, 0 <= f a) -> 0 <= Rsum (map f l).
Proof.
  intros Hf. induction l as [|a l IH]; simpl; [lra | specialize (Hf a); lra].
Qed.

Lemma map_nth_seq {A : Type} (l : list A) (d : A) :
  map (fun j => nth j l d) (seq 0 (length l)) = l.
Proof.
  induction l as [|a l IH]; simpl; [reflexivity|].
  f_equal. rewrite <- seq_shift, map_map. exact IH.
Qed.

Lemma INR_pos_neq0 (n : nat) : (1 <= n)%nat -> INR n <> 0.
Proof.
  intros Hn. apply not_0_INR. lia.
Qed.

(* ================================================================== *)
(** ** Arrays of finite numbers *)

Lemma nth_map_Fin (r : list R) (j : nat) :
  (j < length r)%nat -> nth j (map Fin r) Undef = Fin (nth j r 0).
Proof.
  intros Hj. rewrite (nth_indep _ Undef (Fin 0)) by (rewrite length_map; exact Hj).
  apply map_nth.
Qed.

Lemma column_values (n j : nat) (a : list (list R)) :
  Forall (fun r => length r = n) a -> (j < n)%nat ->
  numpy.column j (map (map Fin) a) = map Fin (map (fun r => nth j r 0) a).
Proof.
  intros Ha Hj. unfold numpy.column. rewrite !map_map.
  apply map_ext_in. intros r Hr.
  rewrite Forall_forall in Ha. apply nth_map_Fin. rewrite (Ha r Hr). exact Hj.
Qed.

Lemma sum_axis0_values (n : nat) (a : list (list R)) :
  Forall (fun r => length r = n) a ->
  numpy.sum_axis0 n (map (map Fin) a)
  = map Fin (map (fun j => Rsum (map (fun r => nth j r 0) a)) (seq 0 n)).
Proof.
  intros Ha. unfold numpy.sum_axis0. rewrite map_map.
  apply map_ext_in. intros j Hj. apply in_seq in Hj.
  rewrite (column_values n) by (auto; lia). apply sum_map_Fin.
Qed.

Lemma mean_axis0_values (n : nat) (a : list (list R)) :
  Forall (fun r => length r = n) a -> a <> [] ->
  numpy.mean_axis0 n (map (map Fin) a)
  = map Fin (map (fun j => Rsum (map (fun r => nth j r 0) a) / INR (length a))
                 (seq 0 n)).
Proof.
  intros Ha Hne. unfold numpy.mean_axis0. rewrite map_map.
  apply map_ext_in. intros j Hj. apply in_seq in Hj.
  rewrite (column_values n) by (auto; lia).
  unfold numpy.mean. rewrite sum_map_Fin, !length_map.
  apply ndiv_Fin. apply INR_pos_neq0. destruct a; [contradiction | simpl; lia].
Qed.

(** Summing the column sums sums every entry. *)
Lemma Rsum_columns (n : nat) (a : list (list R)) :
  Forall (fun r => length r = n) a ->
  Rsum (map (fun j => Rsum (map (fun r => nth j r 0) a)) (seq 0 n))
  = Rsum (concat a).
Proof.
  induction 1 as [|r a Hr Ha IH]; simpl.
  - induction (seq 0 n) as [|j l IHl]; simpl; lra.
  - rewrite Rsum_app, <- IH.
    rewrite (Rsum_map_plus (fun j => nth j r 0)
               (fun j => Rsum (map (fun r0 => nth j r0 0) a))).
    f_equal. subst n. rewrite map_nth_seq. reflexivity.
Qed.

Lemma square_sub_scalar_Fin (r : list R) (m : R) :
  numpy.square (numpy.sub_scalar (map Fin r) (Fin m))
  = map Fin (map (fun v => (v - m) * (v - m)) r).
Proof.
  unfold numpy.square, numpy.sub_scalar. rewrite !map_map. reflexivity.
Qed.

Lemma Forall_length_map {A B : Type} (f : A -> B) (n : nat) (a : list (list A)) :
  Forall (fun r => length r = n) a ->
  Forall (fun r => length r = n) (map (map f) a).
Proof.
  intros Ha. apply Forall_map. eapply Forall_impl; [|exact Ha].
  simpl. intros r Hr. rewrite length_map. exact Hr.
Qed.

(* ================================================================== *)
(** ** test_retest *)

Lemma harris_pooled_mean (x : ndarray) :
  well_formed x -> (1 <= length (rows x))%nat -> (1 <= ncols x)%nat ->
  ndiv (numpy.sum (numpy.sum_axis0 (ncols x) (values x)))
       (Fin (INR (length (rows x) * ncols x)))
  = Fin (pooled_mean x).
Proof.
  intros Hwf HM HN. unfold values.
  rewrite sum_axis0_values by exact Hwf.
  rewrite sum_map_Fin, (Rsum_columns _ _ Hwf).
  apply ndiv_Fin. apply INR_pos_neq0. nia.
Qed.

Lemma harris_pooled_var (x : ndarray) :
  well_formed x -> (1 <= length (rows x))%nat -> (1 <= ncols x)%nat ->
  ndiv (numpy.sum
          (numpy.sum_axis0 (ncols x)
             (map (fun r => numpy.square
                              (numpy.sub_scalar r (Fin (pooled_mean x))))
                  (values x))))
       (Fin (INR (length (rows x) * ncols x)))
  = Fin (pooled_var x).
Proof.
  intros Hwf HM HN. unfold values. rewrite map_map.
  rewrite (map_ext _ _ (fun r => square_sub_scalar_Fin r (pooled_mean x))).
  rewrite <- (map_map
                (map (fun v => (v - pooled_mean x) * (v - pooled_mean x)))
                (map Fin)).
  rewrite sum_axis0_values by (apply Forall_length_map; exact Hwf).
  rewrite sum_map_Fin, Rsum_columns by (apply Forall_length_map; exact Hwf).
  rewrite <- concat_map.
  apply ndiv_Fin. apply INR_pos_neq0. nia.
Qed.

Lemma harris_between (x : ndarray) :
  well_formed x -> (1 <= length (rows x))%nat -> (1 <= ncols x)%nat ->
  ndiv (numpy.sum
          (numpy.square
             (numpy.sub_scalar (numpy.mean_axis0 (ncols x) (values x))
                               (Fin (pooled_mean x)))))
       (Fin (INR (ncols x)))
  = Fin (harris_b x).
Proof.
  intros Hwf HM HN. unfold values.
  assert (Hne : rows x <> []).
  { destruct (rows x); [simpl in HM; lia | discriminate]. }
  rewrite (mean_axis0_values _ _ Hwf Hne).
  rewrite square_sub_scalar_Fin, sum_map_Fin, map_map.
  apply ndiv_Fin. apply INR_pos_neq0. exact HN.
Qed.

Lemma harris_branch (x : ndarray) :
  well_formed x -> (2 <= length (rows x))%nat -> (1 <= ncols x)%nat ->
  test_retest x "harris" = Return (harris_formula x).
Proof.
  intros Hwf HM HN. unfold test_retest, shape.
  change (("harris" =? "fisher")%string) with false.
  change (("harris" =? "harris")%string) with true. cbv iota beta. simpl andb. cbv iota.
  rewrite harris_pooled_mean by (auto; lia).
  rewrite harris_pooled_var by (auto; lia).
  rewrite harris_between by (auto; lia).
  assert (HM1 : INR (length (rows x)) - 1 <> 0).
  { apply le_INR in HM. simpl in HM. lra. }
  rewrite !py_div_ok by exact HM1. reflexivity.
Qed.

(** *** Two measurements: Fisher's formula *)

Lemma zip_with_Fin (f : R -> R -> R) (u v : list R) :
  numpy.zip_with (lift2 f) (map Fin u) (map Fin v)
  = map Fin (map (fun p => f (fst p) (snd p)) (combine u v)).
Proof.
  revert v. induction u as [|a u IH]; intros [|b v]; simpl; try reflexivity.
  rewrite IH. reflexivity.
Qed.

Lemma map_combine_map (f : R -> R) (g : R -> R -> R) (u v : list R) :
  map (fun p => g (fst p) (snd p)) (combine (map f u) (map f v))
  = map (fun p => g (f (fst p)) (f (snd p))) (combine u v).
Proof.
  revert v. induction u as [|a u IH]; intros [|b v]; simpl; try reflexivity.
  rewrite IH. reflexivity.
Qed.

Lemma map_seq_combine {A : Type} (g : R -> R -> A) (u v : list R) :
  length u = length v ->
  map (fun j => g (nth j u 0) (nth j v 0)) (seq 0 (length u))
  = map (fun p => g (fst p) (snd p)) (combine u v).
Proof.
  revert v. induction u as [|a u IH]; intros [|b v] Hlen; simpl in *;
    try discriminate; try reflexivity.
  f_equal. rewrite <- seq_shift, map_map. apply IH. lia.
Qed.

Lemma Rsum_combine_plus (u v : list R) :
  length u = length v ->
  Rsum (map (fun p => fst p + snd p) (combine u v)) = Rsum u + Rsum v.
Proof.
  revert v. induction u as [|a u IH]; intros [|b v] Hlen; simpl in *;
    try discriminate; [lra|].
  rewrite IH by lia. lra.
Qed.

(** The squared deviations of the pair means split into the squared
    deviations of both rows and twice their cross products. *)
Lemma Rsum_pair_means (m : R) (u v : list R) :
  length u = length v ->
  4 * Rsum (map (fun p => ((fst p + snd p) / 2 - m) * ((fst p + snd p) / 2 - m))
                (combine u v))
  = Rsum (map (fun a => (a - m) * (a - m)) u)
    + Rsum (map (fun a => (a - m) * (a - m)) v)
    + 2 * Rsum (map (fun p => (fst p - m) * (snd p - m)) (combine u v)).
Proof.
  revert v. induction u as [|a u IH]; intros [|b v] Hlen; simpl in *;
    try discriminate; [lra|].
  specialize (IH v ltac:(lia)). lra.
Qed.

Section TwoMeasurements.

Variable n : nat.
Variables x0 x1 : list R.
Hypothesis Hn : (1 <= n)%nat.
Hypothesis H0 : length x0 = n.
Hypothesis H1 : length x1 = n.

Let x : ndarray := mk_ndarray n [x0; x1].
Let m : R := pooled_mean x.
Let S0 : R := Rsum (map (fun a => (a - m) * (a - m)) x0).
Let S1 : R := Rsum (map (fun a => (a - m) * (a - m)) x1).
Let P : R := Rsum (map (fun p => (fst p - m) * (snd p - m)) (combine x0 x1)).

Lemma two_INR : INR n <> 0.
Proof. apply INR_pos_neq0. exact Hn. Qed.

Lemma two_pooled_mean : m = (Rsum x0 + Rsum x1) / (2 * INR n).
Proof.
  unfold m, pooled_mean, entries, x. simpl rows. simpl ncols. simpl concat.
  rewrite !Rsum_app. simpl Rsum. change (length [x0; x1]) with 2%nat.
  rewrite mult_INR. simpl INR. f_equal. lra.
Qed.

Lemma two_pooled_var : pooled_var x = (S0 + S1) / (2 * INR n).
Proof.
  unfold pooled_var, entries. fold m. unfold x. simpl rows. simpl ncols.
  simpl concat. rewrite !map_app, !Rsum_app. simpl map. simpl Rsum.
  change (length [x0; x1]) with 2%nat.
  rewrite mult_INR. simpl INR. fold S0 S1. f_equal. lra.
Qed.

Lemma two_harris_b : harris_b x = (S0 + S1 + 2 * P) / 4 / INR n.
Proof.
  unfold harris_b. fold m. unfold subject_mean, x. simpl rows. simpl ncols.
  change (length [x0; x1]) with 2%nat. simpl INR. f_equal.
  pose proof (Rsum_pair_means m x0 x1 ltac:(congruence)) as E.
  fold S0 S1 P in E.
  rewrite <- H0.
  rewrite (map_ext
             (fun j => (Rsum (map (fun r => nth j r 0) [x0; x1]) / (1 + 1) - m)
                       * (Rsum (map (fun r => nth j r 0) [x0; x1]) / (1 + 1) - m))
             (fun j => ((nth j x0 0 + nth j x1 0) / 2 - m)
                       * ((nth j x0 0 + nth j x1 0) / 2 - m))).
  - rewrite (map_seq_combine
               (fun a b => ((a + b) / 2 - m) * ((a + b) / 2 - m)))
      by congruence.
    lra.
  - intros j. simpl. f_equal; f_equal; lra.
Qed.

Lemma fisher_branch :
  pooled_var x <> 0 ->
  test_retest x "fisher" = Return (Fin (P / (INR n * pooled_var x))).
Proof.
  intros Hvar. pose proof two_INR as Hn0.
  unfold test_retest, shape, row, values. simpl rows. simpl ncols.
  change (("fisher" =? "fisher")%string) with true. simpl andb. cbv iota.
  simpl nth.
  unfold numpy.add, nadd. rewrite zip_with_Fin, sum_map_Fin.
  rewrite Rsum_combine_plus by congruence.
  rewrite ndiv_Fin by lra.
  rewrite <- two_pooled_mean.
  rewrite !square_sub_scalar_Fin, !sum_map_Fin. fold S0 S1.
  cbn [lift2]. rewrite ndiv_Fin by lra.
  rewrite <- two_pooled_var.
  unfold numpy.sub_scalar, numpy.multiply. rewrite !map_map.
  simpl nsub.
  rewrite <- (map_map (fun a => a - m) Fin x0).
  rewrite <- (map_map (fun a => a - m) Fin x1).
  unfold nmul at 1. rewrite zip_with_Fin, sum_map_Fin.
  rewrite (map_combine_map (fun a => a - m) Rmult). fold P.
  simpl nmul. rewrite ndiv_Fin by (apply Rmult_integral_contrapositive; auto).
  reflexivity.
Qed.

Lemma harris_two_branch :
  pooled_var x <> 0 ->
  test_retest x "harris" = Return (Fin (P / (INR n * pooled_var x))).
Proof.
  intros Hvar. pose proof two_INR as Hn0.
  rewrite harris_branch.
  - unfold harris_formula. rewrite ndiv_Fin by exact Hvar. simpl.
    do 2 f_equal. unfold harris_a, harris_c.
    rewrite two_harris_b. revert Hvar. rewrite two_pooled_var. intros Hvar.
    unfold x. simpl rows. change (length [x0; x1]) with 2%nat. simpl INR.
    assert (S0 + S1 <> 0).
    { intros E. apply Hvar. rewrite E. unfold Rdiv. lra. }
    field. repeat split; auto; lra.
  - unfold well_formed, x. simpl. repeat constructor; assumption.
  - simpl. lia.
  - exact Hn.
Qed.

End TwoMeasurements.

(* ================================================================== *)
(** ** The half-assignment vector and the label array *)

Lemma firstn_repeat_add {A : Type} (a : A) (k j : nat) :
  firstn k (repeat a (k + j)) = repeat a k.
Proof.
  induction k as [|k IH]; simpl; [reflexivity | rewrite IH; reflexivity].
Qed.

Lemma skipn_repeat_add {A : Type} (a : A) (k j : nat) :
  skipn k (repeat a (k + j)) = repeat a j.
Proof.
  induction k as [|k IH]; simpl; [reflexivity | exact IH].
Qed.

Lemma half_le (m : nat) : (m / 2 <= m)%nat.
Proof. apply Nat.Div0.div_le_upper_bound. lia. Qed.

Lemma initial_halves_broadcast (m n : nat) :
  initial_halves m n = broadcast n (initial_labels m).
Proof.
  unfold initial_halves, numpy.fill_from, numpy.ones, broadcast, initial_labels.
  pose proof (half_le m) as Hle.
  remember (m / 2)%nat as k eqn:Ek. remember (m - k)%nat as j eqn:Ej.
  assert (E : m = (k + j)%nat) by lia. clear Ek Ej Hle. subst m.
  rewrite firstn_repeat_add, skipn_repeat_add.
  rewrite map_app, !map_repeat. reflexivity.
Qed.

Lemma initial_labels_half (m : nat) : half_labelled m (initial_labels m).
Proof.
  pose proof (half_le m) as Hle.
  unfold half_labelled, initial_labels. rewrite length_app, !repeat_length.
  rewrite !count_occ_app.
  rewrite (count_occ_repeat_eq Z.eq_dec (x:=1%Z) (y:=1%Z)) by reflexivity.
  rewrite (count_occ_repeat_neq Z.eq_dec (x:=1%Z) (y:=2%Z)) by discriminate.
  rewrite (count_occ_repeat_neq Z.eq_dec (x:=2%Z) (y:=1%Z)) by discriminate.
  rewrite (count_occ_repeat_eq Z.eq_dec (x:=2%Z) (y:=2%Z)) by reflexivity.
  lia.
Qed.

Lemma valid_draw_lt (m : nat) (p : list nat) (i : nat) :
  valid_draw m p -> In i p -> (i < m)%nat.
Proof.
  intros Hp Hi. apply (Permutation_in _ Hp), in_seq in Hi. lia.
Qed.

Lemma permute_Permutation (p : list nat) (labels : list Z) :
  valid_draw (length labels) p -> Permutation (permute p labels) labels.
Proof.
  intros Hp. unfold permute.
  apply (Permutation_map (fun i => nth i labels 0%Z)) in Hp.
  rewrite map_nth_seq in Hp. exact Hp.
Qed.

Lemma permute_half (m : nat) (p : list nat) (labels : list Z) :
  half_labelled m labels -> valid_draw m p -> half_labelled m (permute p labels).
Proof.
  intros (Hlen & Hc1 & Hc2) Hp. rewrite <- Hlen in Hp.
  pose proof (permute_Permutation p labels Hp) as HP.
  unfold half_labelled.
  rewrite (Permutation_length HP).
  rewrite (Permutation_count_occ Z.eq_dec) in HP.
  rewrite !HP. auto.
Qed.

Lemma labels_after_half (rng : nat -> list nat) (m k : nat) :
  (forall i, valid_draw m (rng i)) -> half_labelled m (labels_after rng m k).
Proof.
  intros Hrng. induction k as [|k IH]; simpl.
  - apply initial_labels_half.
  - apply permute_half; auto.
Qed.

Lemma shuffle_broadcast (n : nat) (p : list nat) (labels : list Z) :
  valid_draw (length labels) p ->
  numpy.random.shuffle p (broadcast n labels) = broadcast n (permute p labels).
Proof.
  intros Hp. unfold numpy.random.shuffle, broadcast, permute. rewrite map_map.
  apply map_ext_in. intros i Hi.
  pose proof (valid_draw_lt _ _ _ Hp Hi) as Hlt.
  rewrite (nth_indep _ [] (repeat 0%Z n)) by (rewrite length_map; exact Hlt).
  apply (map_nth (fun l => repeat l n)).
Qed.

Lemma halves_after_broadcast (rng : nat -> list nat) (m n k : nat) :
  (forall i, valid_draw m (rng i)) ->
  halves_after rng m n k = broadcast n (labels_after rng m k).
Proof.
  intros Hrng. induction k as [|k IH]; simpl.
  - apply initial_halves_broadcast.
  - rewrite IH. apply shuffle_broadcast.
    destruct (labels_after_half rng m k Hrng) as (-> & _). apply Hrng.
Qed.

(* ================================================================== *)
(** ** Forming the groups: masking and reshaping *)

Lemma mask_row_repeat (xr : list num) (l lab : Z) :
  numpy.mask_row xr (repeat l (length xr)) lab
  = if (l =? lab)%Z then xr else [].
Proof.
  induction xr as [|e xr IH]; simpl.
  - destruct (l =? lab)%Z; reflexivity.
  - rewrite IH. destruct (l =? lab)%Z; reflexivity.
Qed.

Lemma mask_select_broadcast (n : nat) (a : list (list num)) (labels : list Z)
    (lab : Z) :
  Forall (fun r => length r = n) a ->
  numpy.mask_select a (broadcast n labels) lab
  = concat (select_rows labels lab a).
Proof.
  intros Ha. revert labels.
  induction Ha as [|r a Hr Ha IH]; intros [|l labels]; simpl; try reflexivity.
  rewrite IH. subst n. rewrite mask_row_repeat.
  destruct (l =? lab)%Z; reflexivity.
Qed.

Lemma select_rows_Forall {A : Type} (Q : A -> Prop) (labels : list Z) (lab : Z)
    (a : list A) :
  Forall Q a -> Forall Q (select_rows labels lab a).
Proof.
  intros Ha. revert labels.
  induction Ha as [|r a Hr Ha IH]; intros [|l labels]; simpl; auto.
  destruct (l =? lab)%Z; auto.
Qed.

Lemma select_rows_length {A : Type} (labels : list Z) (lab : Z) (a : list A) :
  length a = length labels ->
  length (select_rows labels lab a) = count_occ Z.eq_dec labels lab.
Proof.
  revert a. induction labels as [|l labels IH]; intros [|r a] Hlen;
    simpl in *; try discriminate; try reflexivity.
  destruct (Z.eqb_spec l lab) as [E|E]; destruct (Z.eq_dec l lab);
    try contradiction; simpl; rewrite IH by lia; reflexivity.
Qed.

Lemma concat_length_uniform (n : nat) (g : list (list num)) :
  Forall (fun r => length r = n) g -> length (concat g) = (length g * n)%nat.
Proof.
  induction 1 as [|r g Hr Hg IH]; simpl; [reflexivity|].
  rewrite length_app, IH, Hr. reflexivity.
Qed.

Lemma chunks_concat (n : nat) (g : list (list num)) :
  Forall (fun r => length r = n) g -> numpy.chunks (length g) n (concat g) = g.
Proof.
  induction 1 as [|r g Hr Hg IH]; simpl; [reflexivity|].
  subst n. rewrite firstn_app, firstn_all, Nat.sub_diag, skipn_app, skipn_all.
  rewrite Nat.sub_diag. simpl. rewrite app_nil_r, IH. reflexivity.
Qed.

(** Masking with a column-uniform label array and reshaping returns the
    rows that carry the label. *)
Lemma reshape_mask_select (n k : nat) (a : list (list num)) (labels : list Z)
    (lab : Z) :
  Forall (fun r => length r = n) a ->
  length a = length labels ->
  count_occ Z.eq_dec labels lab = k ->
  numpy.reshape (numpy.mask_select a (broadcast n labels) lab) (k, n)
  = Return (select_rows labels lab a).
Proof.
  intros Ha Hlen Hk.
  pose proof (select_rows_Forall _ labels lab a Ha) as Hg.
  rewrite mask_select_broadcast by exact Ha.
  unfold numpy.reshape.
  rewrite (concat_length_uniform n) by exact Hg.
  rewrite select_rows_length, Hk, Nat.eqb_refl by exact Hlen.
  rewrite <- Hk, <- (select_rows_length labels lab a Hlen).
  rewrite chunks_concat by exact Hg. reflexivity.
Qed.

Lemma values_Forall (x : ndarray) :
  well_formed x -> Forall (fun r => length r = ncols x) (values x).
Proof.
  intros Hwf. unfold values. apply Forall_length_map. exact Hwf.
Qed.

Lemma values_length (x : ndarray) : length (values x) = length (rows x).
Proof. unfold values. apply length_map. Qed.

(* ================================================================== *)
(** ** The trial loop of split_half *)

Lemma mode_in_allowed (mode : string) :
  mode_in mode allowed_modes = true ->
  mode = "correlation"%string \/ mode = "spearman-brown"%string.
Proof.
  unfold mode_in, allowed_modes. simpl. rewrite orb_false_r.
  intros H. apply orb_true_iff in H.
  destruct H as [H|H]; apply String.eqb_eq in H; auto.
Qed.

Lemma trial_step (rng : nat -> list nat) (x : ndarray) (mode : string) (i : nat)
    (labels : list Z) (r_ : list num) :
  well_formed x ->
  half_labelled (length (rows x)) labels ->
  valid_draw (length (rows x)) (rng i) ->
  mode_in mode allowed_modes = true ->
  trial rng x mode i (broadcast (ncols x) labels, r_)
  = Return
      (broadcast (ncols x) (permute (rng i) labels),
       numpy.setitem r_ i
         (trial_sample mode
            (pearsonr
               (numpy.mean_axis0 (ncols x)
                  (select_rows (permute (rng i) labels) 1%Z (values x)))
               (numpy.mean_axis0 (ncols x)
                  (select_rows (permute (rng i) labels) 2%Z (values x)))))).
Proof.
  intros Hwf Hlab Hp Hmode.
  destruct (permute_half _ _ _ Hlab Hp) as (Hlen & Hc1 & Hc2).
  unfold trial, shape.
  rewrite shuffle_broadcast by (destruct Hlab as (-> & _); exact Hp).
  rewrite (reshape_mask_select _ _ _ _ _ (values_Forall x Hwf))
    by (rewrite ?values_length; auto).
  rewrite (reshape_mask_select _ _ _ _ _ (values_Forall x Hwf))
    by (rewrite ?values_length; auto).
  cbn [bind]. unfold trial_sample.
  destruct (mode_in_allowed mode Hmode) as [-> | ->]; reflexivity.
Qed.

Lemma setitem_app (pre : list num) (e : num) (tl : list num) (v : num) :
  numpy.setitem (pre ++ e :: tl) (length pre) v = pre ++ v :: tl.
Proof.
  induction pre as [|a pre IH]; simpl; [reflexivity | rewrite IH; reflexivity].
Qed.

Section Trials.

Variable rng : nat -> list nat.
Variable x : ndarray.
Variable mode : string.
Hypothesis Hwf : well_formed x.
Hypothesis Hrng : forall i, valid_draw (length (rows x)) (rng i).
Hypothesis Hmode : mode_in mode allowed_modes = true.

(** The loop invariant: before iteration [s] the label array broadcasts
    the vector shuffled [s] times, and the first [s] places of [r_] hold
    the samples of the trials run so far. *)
Lemma for_range_trials (k s rest : nat) (pre : list num) :
  length pre = s ->
  for_range (trial rng x mode) (seq s k)
    (broadcast (ncols x) (labels_after rng (length (rows x)) s),
     pre ++ numpy.zeros (k + rest))
  = Return
      (broadcast (ncols x) (labels_after rng (length (rows x)) (s + k)),
       pre ++ map (fun i => trial_sample mode (trial_pearson rng x i)) (seq s k)
           ++ numpy.zeros rest).
Proof.
  revert s pre. induction k as [|k IH]; intros s pre Hpre.
  - simpl. rewrite Nat.add_0_r. reflexivity.
  - cbn [seq for_range].
    rewrite trial_step; auto using labels_after_half.
    cbn [bind]. change (numpy.zeros (S k + rest)) with (Fin 0 :: numpy.zeros (k + rest)).
    subst s. rewrite setitem_app.
    change (permute (rng (length pre))
              (labels_after rng (length (rows x)) (length pre)))
      with (labels_after rng (length (rows x)) (S (length pre))).
    match goal with
    | |- context [pre ++ ?v :: ?tl] =>
        change (pre ++ v :: tl) with (pre ++ [v] ++ tl)
    end.
    rewrite app_assoc, IH by (rewrite length_app; simpl; lia).
    rewrite Nat.add_succ_r, <- app_assoc. reflexivity.
Qed.

Lemma split_half_samples_trials (n_splits : Z) :
  split_half_samples rng x n_splits mode
  = Return (trial_samples rng x n_splits mode).
Proof.
  unfold split_half_samples, shape.
  rewrite initial_halves_broadcast.
  pose proof (for_range_trials (Z.to_nat n_splits) 0 0 [] eq_refl) as H.
  rewrite Nat.add_0_r in H. cbn [labels_after app] in H.
  rewrite H. cbn [bind snd]. unfold trial_samples, numpy.zeros.
  simpl repeat. rewrite app_nil_r. reflexivity.
Qed.

Lemma trial_samples_length (n_splits : Z) :
  length (trial_samples rng x n_splits mode) = Z.to_nat n_splits.
Proof. unfold trial_samples. rewrite length_map, length_seq. reflexivity. Qed.

Lemma trial_samples_nth (n_splits : Z) (i : nat) :
  (i < Z.to_nat n_splits)%nat ->
  nth i (trial_samples rng x n_splits mode) Undef
  = trial_sample mode (trial_pearson rng x i).
Proof.
  intros Hi. unfold trial_samples.
  rewrite (nth_indep _ Undef (trial_sample mode (trial_pearson rng x 0)))
    by (rewrite length_map, length_seq; exact Hi).
  rewrite (map_nth (fun i => trial_sample mode (trial_pearson rng x i))).
  rewrite seq_nth by exact Hi. reflexivity.
Qed.

End Trials.

(* ================================================================== *)
(** ** Mean and standard error of the samples *)

Lemma npow2_nabs (a : num) : npow2 (nabs a) = nmul a a.
Proof.
  destruct a as [r|]; simpl; [|reflexivity].
  f_equal. rewrite <- Rabs_mult. apply Rabs_right. nra.
Qed.

Lemma INR_to_nat (n : Z) : (1 <= n)%Z -> INR (Z.to_nat n) = IZR n.
Proof.
  intros Hn. rewrite INR_IZR_INZ, Z2Nat.id by lia. reflexivity.
Qed.

Lemma mean_arithmetic (n : Z) (v : list num) :
  (1 <= n)%Z -> length v = Z.to_nat n -> numpy.mean v = arithmetic_mean n v.
Proof.
  intros Hn Hlen. unfold numpy.mean, arithmetic_mean.
  rewrite Hlen, INR_to_nat by exact Hn. reflexivity.
Qed.

Lemma std_population (n : Z) (v : list num) :
  (1 <= n)%Z -> length v = Z.to_nat n -> numpy.std v = population_std n v.
Proof.
  intros Hn Hlen. unfold numpy.std, population_std.
  rewrite (mean_arithmetic n v Hn Hlen).
  rewrite (mean_arithmetic n) by (rewrite ?length_map; auto).
  unfold arithmetic_mean at 1. do 3 f_equal.
  apply map_ext. intros e. apply npow2_nabs.
Qed.

Lemma allowed_mode_in (mode : string) :
  mode = "correlation"%string \/ mode = "spearman-brown"%string ->
  mode_in mode allowed_modes = true.
Proof. intros [-> | ->]; reflexivity. Qed.

Lemma split_half_returns (rng : nat -> list nat) (x : ndarray) (n_splits : Z)
    (mode : string) :
  well_formed x ->
  (forall i, valid_draw (length (rows x)) (rng i)) ->
  (1 <= n_splits)%Z ->
  mode = "correlation"%string \/ mode = "spearman-brown"%string ->
  split_half rng x n_splits mode
  = Return (arithmetic_mean n_splits (trial_samples rng x n_splits mode),
            standard_error n_splits (trial_samples rng x n_splits mode)).
Proof.
  intros Hwf Hrng Hn Hmode. apply allowed_mode_in in Hmode.
  unfold split_half.
  destruct (Z.ltb_spec n_splits 1) as [Hlt|_]; [lia|].
  rewrite Hmode. cbn [negb].
  rewrite split_half_samples_trials by assumption. cbn [bind].
  rewrite (mean_arithmetic n_splits), (std_population n_splits)
    by (auto using trial_samples_length).
  reflexivity.
Qed.

(* ================================================================== *)
(** ** The Pearson coefficient lies between -1 and 1 *)

Lemma quadratic_nonneg (l : list (R * R)) (t : R) :
  0 <= Rsum (map (fun p => fst p * fst p) l) * (t * t)
       + 2 * Rsum (map (fun p => fst p * snd p) l) * t
       + Rsum (map (fun p => snd p * snd p) l).
Proof.
  induction l as [|[a b] l IH]; simpl; [lra|].
  pose proof (Rle_0_sqr (a * t + b)) as Hsq. unfold Rsqr in Hsq. nra.
Qed.

Lemma cauchy_schwarz_pairs (l : list (R * R)) :
  Rsum (map (fun p => fst p * snd p) l) * Rsum (map (fun p => fst p * snd p) l)
  <= Rsum (map (fun p => fst p * fst p) l) * Rsum (map (fun p => snd p * snd p) l).
Proof.
  pose proof (quadratic_nonneg l) as Hq.
  pose proof (Rsum_map_nonneg (fun p : R * R => fst p * fst p) l) as HA.
  set (A := Rsum (map (fun p => fst p * fst p) l)) in *.
  set (B := Rsum (map (fun p => snd p * snd p) l)) in *.
  set (C := Rsum (map (fun p => fst p * snd p) l)) in *.
  assert (HA0 : 0 <= A) by (apply HA; intros p; nra).
  destruct (Req_EM_T A 0) as [EA|NA].
  - destruct (Req_EM_T C 0) as [EC|NC]; [rewrite EC, EA; lra|].
    exfalso. specialize (Hq (- (B + 1) / (2 * C))).
    rewrite EA in Hq.
    replace (2 * C * (- (B + 1) / (2 * C))) with (- (B + 1)) in Hq
      by (field; exact NC).
    lra.
  - specialize (Hq (- C / A)).
    assert (E : A * (- C / A) = - C) by (field; exact NA).
    set (t := - C / A) in *.
    assert (H1 : 0 <= C * t + B) by nra.
    assert (H2 : 0 <= A * (C * t + B)) by (apply Rmult_le_pos; lra).
    nra.
Qed.

Lemma Rsum_combine_fst_le (f : R -> R) (u v : list R) :
  (forall a, 0 <= f a) ->
  0 <= Rsum (map (fun p => f (fst p)) (combine u v)) <= Rsum (map f u).
Proof.
  intros Hf. revert v.
  induction u as [|a u IH]; intros [|b v]; simpl; try lra.
  - pose proof (Rsum_map_nonneg f u Hf). specialize (Hf a). lra.
  - specialize (IH v). specialize (Hf a). lra.
Qed.

Lemma Rsum_combine_snd_le (f : R -> R) (u v : list R) :
  (forall a, 0 <= f a) ->
  0 <= Rsum (map (fun p => f (snd p)) (combine u v)) <= Rsum (map f v).
Proof.
  intros Hf. revert v.
  induction u as [|a u IH]; intros [|b v]; simpl; try lra.
  - pose proof (Rsum_map_nonneg f v Hf). specialize (Hf b). lra.
  - specialize (IH v). specialize (Hf b). lra.
Qed.

Lemma cauchy_schwarz (u v : list R) :
  Rsum (map (fun p => fst p * snd p) (combine u v))
  * Rsum (map (fun p => fst p * snd p) (combine u v))
  <= Rsum (map (fun a => a * a) u) * Rsum (map (fun a => a * a) v).
Proof.
  pose proof (cauchy_schwarz_pairs (combine u v)) as H.
  pose proof (Rsum_combine_fst_le (fun a => a * a) u v) as Hu.
  pose proof (Rsum_combine_snd_le (fun a => a * a) u v) as Hv.
  assert (Hsq : forall a, 0 <= a * a) by (intros a; nra).
  specialize (Hu Hsq). specialize (Hv Hsq). simpl in Hu, Hv. nra.
Qed.

Lemma all_defined_map_Fin (v : list num) :
  (forall e, In e v -> defined e) -> exists l, v = map Fin l.
Proof.
  induction v as [|a v IH]; intros H.
  - exists []. reflexivity.
  - destruct IH as (l & ->); [intros e He; apply H; right; exact He|].
    destruct (H a (or_introl eq_refl)) as (r & ->).
    exists (r :: l). reflexivity.
Qed.

Lemma square_map_Fin (l : list R) :
  numpy.square (map Fin l) = map Fin (map (fun a => a * a) l).
Proof. unfold numpy.square. rewrite !map_map. reflexivity. Qed.

Lemma sum_square_Fin_inv (v : list num) (a : R) :
  numpy.sum (numpy.square v) = Fin a ->
  exists l, v = map Fin l /\ a = Rsum (map (fun e => e * e) l).
Proof.
  intros H. destruct (sum_Fin_inv _ _ H) as (l0 & E & _).
  assert (Hv : exists l, v = map Fin l).
  { apply all_defined_map_Fin. intros e He.
    assert (Hin : In (npow2 e) (map Fin l0)).
    { rewrite <- E. unfold numpy.square. apply in_map. exact He. }
    apply in_map_iff in Hin. destruct Hin as (r & Hr & _).
    destruct e as [q|]; [exists q; reflexivity | discriminate]. }
  destruct Hv as (l & ->). exists l. split; [reflexivity|].
  rewrite square_map_Fin, sum_map_Fin in H. injection H as <-. reflexivity.
Qed.

Lemma pearsonr_bounds (u v : list num) (rho : R) :
  pearsonr u v = Fin rho -> -1 <= rho <= 1.
Proof.
  unfold pearsonr. intros H.
  apply ndiv_Fin_inv in H. destruct H as (c & d & Hc & Hd & Hd0 & ->).
  apply nsqrt_Fin_inv in Hd. destruct Hd as (t & Ht & Ht0 & ->).
  destruct (numpy.sum (numpy.square (numpy.sub_scalar u (numpy.mean u))))
    as [a|] eqn:EA; [|discriminate].
  destruct (numpy.sum (numpy.square (numpy.sub_scalar v (numpy.mean v))))
    as [b|] eqn:EB; [|discriminate].
  simpl in Ht. injection Ht as <-.
  apply sum_square_Fin_inv in EA. destruct EA as (du & Eu & ->).
  apply sum_square_Fin_inv in EB. destruct EB as (dv & Ev & ->).
  rewrite Eu, Ev in Hc. unfold numpy.multiply, nmul in Hc.
  rewrite zip_with_Fin, sum_map_Fin in Hc. injection Hc as <-.
  pose proof (cauchy_schwarz du dv) as HCS.
  set (C := Rsum (map (fun p => fst p * snd p) (combine du dv))) in *.
  set (AB := Rsum (map (fun e => e * e) du) * Rsum (map (fun e => e * e) dv)) in *.
  pose proof (sqrt_sqrt AB Ht0) as Hss.
  pose proof (sqrt_pos AB) as Hsp.
  set (D := sqrt AB) in *.
  assert (HD : 0 < D) by lra.
  assert (HDi : 0 < / D) by (apply Rinv_0_lt_compat; exact HD).
  assert (HDD : D * / D = 1) by (apply Rinv_r; exact Hd0).
  assert (Hb : - D <= C <= D) by nra.
  unfold Rdiv. split; nra.
Qed.

(* ================================================================== *)
(** ** Mean and standard error of finite samples *)

Lemma IZR_pos (n : Z) : (1 <= n)%Z -> 0 < IZR n.
Proof. intros Hn. apply (IZR_lt 0). lia. Qed.

Lemma arithmetic_mean_Fin (n : Z) (l : list R) :
  (1 <= n)%Z -> arithmetic_mean n (map Fin l) = Fin (Rsum l / IZR n).
Proof.
  intros Hn. pose proof (IZR_pos n Hn). unfold arithmetic_mean.
  rewrite sum_map_Fin. apply ndiv_Fin. lra.
Qed.

Lemma arithmetic_mean_Fin_inv (n : Z) (v : list num) (r : R) :
  arithmetic_mean n v = Fin r -> exists l, v = map Fin l.
Proof.
  unfold arithmetic_mean. intros H.
  apply ndiv_Fin_inv in H. destruct H as (s & _ & Hs & _).
  destruct (sum_Fin_inv _ _ Hs) as (l & -> & _). exists l. reflexivity.
Qed.

Lemma arithmetic_mean_Undef (n : Z) (v : list num) :
  In Undef v -> arithmetic_mean n v = Undef.
Proof.
  intros H. unfold arithmetic_mean. rewrite sum_Undef by exact H. reflexivity.
Qed.

Lemma standard_error_nonneg (n : Z) (v : list num) (s : R) :
  (1 <= n)%Z -> standard_error n v = Fin s -> 0 <= s.
Proof.
  intros Hn H. pose proof (IZR_pos n Hn) as Hpos.
  unfold standard_error in H.
  apply ndiv_Fin_inv in H. destruct H as (u & w & Hu & Hw & Hw0 & ->).
  unfold population_std in Hu.
  apply nsqrt_Fin_inv in Hu. destruct Hu as (t & _ & _ & ->).
  apply nsqrt_Fin_inv in Hw. destruct Hw as (t' & _ & _ & ->).
  pose proof (sqrt_pos t). pose proof (sqrt_pos t').
  apply Rmult_le_pos; [assumption|].
  apply Rlt_le, Rinv_0_lt_compat. lra.
Qed.

Lemma standard_error_Fin (n : Z) (l : list R) :
  (1 <= n)%Z -> exists s, standard_error n (map Fin l) = Fin s /\ 0 <= s.
Proof.
  intros Hn. pose proof (IZR_pos n Hn) as Hpos.
  assert (Hs : exists s, standard_error n (map Fin l) = Fin s).
  { unfold standard_error, population_std.
    rewrite arithmetic_mean_Fin by exact Hn.
    rewrite map_map. cbn [nsub nmul lift2].
    rewrite <- (map_map (fun s => (s - Rsum l / IZR n) * (s - Rsum l / IZR n)) Fin).
    rewrite sum_map_Fin, ndiv_Fin by lra.
    rewrite nsqrt_Fin.
    - rewrite nsqrt_Fin by lra. rewrite ndiv_Fin; [eauto|].
      pose proof (sqrt_lt_R0 (IZR n) Hpos). lra.
    - apply Rmult_le_pos; [|apply Rlt_le, Rinv_0_lt_compat; exact Hpos].
      apply Rsum_map_nonneg. intros a. apply Rle_0_sqr. }
  destruct Hs as (s & Hs). exists s. split; [exact Hs|].
  eapply standard_error_nonneg; eauto.
Qed.

Lemma standard_error_Undef (n : Z) (v : list num) :
  In Undef v -> standard_error n v = Undef.
Proof.
  intros H. unfold standard_error, population_std.
  rewrite (sum_Undef (map _ v)); [reflexivity|].
  apply in_map_iff. exists Undef. split; [reflexivity | exact H].
Qed.

Lemma Rsum_bounds (l : list R) :
  (forall e, In e l -> -1 <= e <= 1) ->
  - INR (length l) <= Rsum l <= INR (length l).
Proof.
  induction l as [|a l IH]; intros H.
  - simpl. lra.
  - change (length (a :: l)) with (S (length l)). rewrite S_INR.
    cbn [Rsum fold_right]. fold (Rsum l).
    specialize (H a (or_introl eq_refl)) as Ha.
    assert (IH' : - INR (length l) <= Rsum l <= INR (length l)).
    { apply IH. intros e He. apply H. right. exact He. }
    lra.
Qed.

(* ================================================================== *)
(** ** The Pearson coefficient of finite vectors *)

Lemma mean_map_Fin (u : list R) :
  u <> [] -> numpy.mean (map Fin u) = Fin (Rsum u / INR (length u)).
Proof.
  intros Hu. unfold numpy.mean. rewrite sum_map_Fin, length_map.
  apply ndiv_Fin. apply INR_pos_neq0. destruct u; [contradiction | simpl; lia].
Qed.

Lemma sub_scalar_map_Fin (u : list R) (m : R) :
  numpy.sub_scalar (map Fin u) (Fin m) = map Fin (map (fun a => a - m) u).
Proof. unfold numpy.sub_scalar. rewrite !map_map. reflexivity. Qed.

Lemma pearsonr_Fin (u v : list R) :
  u <> [] -> v <> [] ->
  pearsonr (map Fin u) (map Fin v)
  = ndiv
      (Fin (Rsum (map (fun p => (fst p - Rsum u / INR (length u))
                                * (snd p - Rsum v / INR (length v)))
                      (combine u v))))
      (Fin (sqrt (Rsum (map (fun a => (a - Rsum u / INR (length u))
                                      * (a - Rsum u / INR (length u))) u)
                  * Rsum (map (fun b => (b - Rsum v / INR (length v))
                                        * (b - Rsum v / INR (length v))) v)))).
Proof.
  intros Hu Hv. unfold pearsonr.
  rewrite !mean_map_Fin by assumption.
  rewrite !sub_scalar_map_Fin, !square_map_Fin, !sum_map_Fin.
  unfold numpy.multiply. unfold nmul at 1.
  rewrite zip_with_Fin, sum_map_Fin. rewrite !map_map.
  cbn [nmul lift2]. rewrite nsqrt_Fin.
  - f_equal. f_equal. f_equal. clear Hu Hv.
    generalize (Rsum u / INR (length u)) (Rsum v / INR (length v)).
    intros mu mv. revert v.
    induction u as [|a u IH]; intros [|b v]; simpl; try reflexivity.
    rewrite IH. reflexivity.
  - apply Rmult_le_pos; apply Rsum_map_nonneg; intros a; apply Rle_0_sqr.
Qed.

Lemma select_rows_values (labels : list Z) (lab : Z) (x : ndarray) :
  select_rows labels lab (values x)
  = map (map Fin) (select_rows labels lab (rows x)).
Proof.
  unfold values. generalize (rows x). intros a. revert a.
  induction labels as [|l labels IH]; intros [|r a]; simpl; try reflexivity.
  destruct (l =? lab)%Z; simpl; rewrite IH; reflexivity.
Qed.

Lemma opposed_pearson : trial_pearson identity_draws opposed_x 0 = Fin (-1).
Proof.
  unfold trial_pearson, group. rewrite !select_rows_values.
  unfold opposed_x, identity_draws.
  cbn [rows ncols length labels_after Nat.div initial_labels].
  simpl select_rows.
  rewrite !mean_axis0_values by (try discriminate; repeat constructor).
  cbn [seq map nth length Rsum fold_right INR].
  change (pearsonr (map Fin [(0 + 0) / 1; (1 + 0) / 1])
                   (map Fin [(1 + 0) / 1; (0 + 0) / 1]) = Fin (-1)).
  rewrite pearsonr_Fin by discriminate.
  cbn [combine map fst snd length Rsum fold_right INR].
  replace (sqrt _) with (1 / 2).
  - rewrite ndiv_Fin by lra. f_equal. field.
  - symmetry. apply sqrt_lem_1; lra.
Qed.

Lemma constant_pearson : trial_pearson identity_draws constant_x 0 = Undef.
Proof.
  unfold trial_pearson, group. rewrite !select_rows_values.
  unfold constant_x, identity_draws.
  cbn [rows ncols length labels_after Nat.div initial_labels].
  simpl select_rows.
  rewrite !mean_axis0_values by (try discriminate; repeat constructor).
  cbn [seq map nth length Rsum fold_right INR].
  change (pearsonr (map Fin [(0 + 0) / 1; (0 + 0) / 1])
                   (map Fin [(0 + 0) / 1; (0 + 0) / 1]) = Undef).
  rewrite pearsonr_Fin by discriminate.
  cbn [combine map fst snd length Rsum fold_right INR].
  apply ndiv_zero.
  replace (_ * _) with 0 by field. apply sqrt_0.
Qed.

Lemma example_pooled_var : pooled_var example_x <> 0.
Proof.
  unfold pooled_var, pooled_mean, entries, example_x.
  cbn [rows ncols concat app length map Rsum fold_right Nat.mul Nat.add INR].
  lra.
Qed.

Lemma trial_samples_one (rng : nat -> list nat) (x : ndarray) (mode : string) :
  trial_samples rng x 1 mode = [trial_sample mode (trial_pearson rng x 0)].
Proof. reflexivity. Qed.

(* ================================================================== *)
(** ** Specification of test_retest *)

(** C1: for every matrix with M >= 2 measurement rows and N >= 1 subject
    columns, [test_retest] in mode 'harris' returns [a * (b / var) - c],
    where the pooled mean is the sum of all M*N entries over M*N, [var] is
    the sum of the squared deviations of all entries from it over M*N,
    [a = M/(M-1)], [b] is the sum over the subjects of the squared
    deviation of the subject's mean from the pooled mean over N, and
    [c = 1/(M-1)]. *)
Theorem test_retest_harris (x : ndarray) :
  well_formed x -> (2 <= length (rows x))%nat -> (1 <= ncols x)%nat ->
  test_retest x "harris" = Return (harris_formula x).
Proof. exact (harris_branch x). Qed.

Lemma test_retest_harris_example :
  well_formed example_x
  /\ (2 <= length (rows example_x))%nat
  /\ (1 <= ncols example_x)%nat
  /\ test_retest example_x "harris" = Return (harris_formula example_x).
Proof.
  assert (Hwf : well_formed example_x) by (repeat constructor).
  assert (HM : (2 <= length (rows example_x))%nat) by (simpl; lia).
  assert (HN : (1 <= ncols example_x)%nat) by (simpl; lia).
  repeat split; try assumption.
  apply (test_retest_harris example_x Hwf HM HN).
Defined.

(** C6, as the program has it: [test_retest] does not validate [mode].
    For a mode outside 'fisher' and 'harris', and for 'fisher' on a matrix
    whose row count is not 2, no branch assigns [r]; the final [return r]
    then raises UnboundLocalError: the error is not the one of a failed
    validation, and no value is returned. *)
Theorem test_retest_unassigned (x : ndarray) (mode : string) :
  (mode <> "fisher"%string /\ mode <> "harris"%string)
  \/ (mode = "fisher"%string /\ length (rows x) <> 2%nat) ->
  test_retest x mode = Raise UnboundLocalError.
Proof.
  intros H. unfold test_retest, shape.
  destruct H as [[Hf Hh] | [-> HM]].
  - apply String.eqb_neq in Hf, Hh. rewrite Hf, Hh. reflexivity.
  - apply Nat.eqb_neq in HM. rewrite HM. reflexivity.
Qed.

Lemma test_retest_unassigned_example :
  (("bogus"%string <> "fisher"%string /\ "bogus"%string <> "harris"%string)
   \/ ("bogus"%string = "fisher"%string /\ length (rows example_x) <> 2%nat))
  /\ test_retest example_x "bogus" = Raise UnboundLocalError.
Proof.
  assert (H : ("bogus"%string <> "fisher"%string
               /\ "bogus"%string <> "harris"%string)
              \/ ("bogus"%string = "fisher"%string /\ length (rows example_x) <> 2%nat)).
  { left. split; discriminate. }
  split; [exact H|].
  apply (test_retest_unassigned example_x "bogus" H).
Defined.

(** C6, as stated, fails: the call with an unrecognised mode is not
    silent, it raises. *)
Lemma test_retest_bogus_raises :
  raises (test_retest example_x "bogus")
  /\ ~ (forall e, test_retest example_x "bogus" <> Raise e).
Proof.
  assert (E : test_retest example_x "bogus" = Raise UnboundLocalError)
    by reflexivity.
  split.
  - exists UnboundLocalError. exact E.
  - intros H. exact (H UnboundLocalError E).
Qed.

(** C7: for every 2 x N matrix with N >= 1 and a nonzero pooled variance,
    the modes 'harris' and 'fisher' return the same real number. *)
Theorem harris_equals_fisher (x : ndarray) :
  well_formed x -> length (rows x) = 2%nat -> (1 <= ncols x)%nat ->
  pooled_var x <> 0 ->
  test_retest x "harris" = test_retest x "fisher"
  /\ exists r, test_retest x "fisher" = Return (Fin r).
Proof.
  intros Hwf HM HN Hvar.
  destruct x as [n [|x0 [|x1 [|x2 rest]]]]; try discriminate.
  unfold well_formed in Hwf. cbn [rows ncols] in *.
  inversion Hwf as [|? ? H0 Hwf']; subst.
  inversion Hwf' as [|? ? H1 _]; subst.
  rewrite (harris_two_branch _ x0 x1 HN eq_refl H1 Hvar).
  rewrite (fisher_branch _ x0 x1 HN eq_refl H1 Hvar).
  split; [reflexivity | eauto].
Qed.

Lemma harris_equals_fisher_example :
  well_formed example_x
  /\ length (rows example_x) = 2%nat
  /\ (1 <= ncols example_x)%nat
  /\ pooled_var example_x <> 0
  /\ test_retest example_x "harris" = test_retest example_x "fisher"
  /\ exists r, test_retest example_x "fisher" = Return (Fin r).
Proof.
  assert (Hwf : well_formed example_x) by (repeat constructor).
  assert (HM : length (rows example_x) = 2%nat) by reflexivity.
  assert (HN : (1 <= ncols example_x)%nat) by (simpl; lia).
  pose proof example_pooled_var as Hvar.
  repeat (split; [assumption|]).
  apply (harris_equals_fisher example_x Hwf HM HN Hvar).
Defined.

(* ================================================================== *)
(** ** The program's trials against the specification's *)

Lemma halves_ge_1 (m : nat) :
  (2 <= m)%nat -> (1 <= m / 2)%nat /\ (1 <= m - m / 2)%nat.
Proof.
  intros Hm. pose proof (Nat.div_mod_eq m 2) as E.
  pose proof (Nat.mod_upper_bound m 2 ltac:(lia)). lia.
Qed.

Lemma subject_means_nonempty (n : nat) (g : list (list R)) :
  (1 <= n)%nat -> subject_means n g <> [].
Proof.
  intros Hn. unfold subject_means. destruct n; [lia | discriminate].
Qed.

Lemma mean_axis0_subject_means (n : nat) (g : list (list R)) :
  Forall (fun r => length r = n) g -> g <> [] ->
  numpy.mean_axis0 n (map (map Fin) g) = map Fin (subject_means n g).
Proof. intros Hg Hne. apply mean_axis0_values; assumption. Qed.

Lemma pearsonr_pearson_correlation (u v : list R) :
  u <> [] -> v <> [] ->
  pearsonr (map Fin u) (map Fin v) = pearson_correlation u v.
Proof. intros Hu Hv. rewrite pearsonr_Fin by assumption. reflexivity. Qed.

(** The coefficient the program computes in trial [i] is the Pearson
    correlation of the subject means of the two row groups. *)
Lemma trial_pearson_correlation (rng : nat -> list nat) (x : ndarray) (i : nat) :
  well_formed x ->
  (2 <= length (rows x))%nat -> (1 <= ncols x)%nat ->
  (forall k, valid_draw (length (rows x)) (rng k)) ->
  trial_pearson rng x i = trial_correlation rng x i.
Proof.
  intros Hwf HM HN Hrng.
  destruct (labels_after_half rng (length (rows x)) (S i) Hrng)
    as (Hl & Hc1 & Hc2).
  destruct (halves_ge_1 _ HM) as [H1 H2].
  unfold trial_pearson, group, trial_correlation, row_group.
  rewrite !select_rows_values.
  assert (Hne : forall lab k,
             count_occ Z.eq_dec (labels_after rng (length (rows x)) (S i)) lab = k ->
             (1 <= k)%nat ->
             select_rows (labels_after rng (length (rows x)) (S i)) lab (rows x)
             <> []).
  { intros lab k Hk Hk1 E. apply (f_equal (@length _)) in E.
    rewrite select_rows_length in E by (rewrite Hl; reflexivity).
    rewrite Hk in E. simpl in E. lia. }
  rewrite (mean_axis0_subject_means _ _
             (select_rows_Forall _ _ 1%Z _ Hwf) (Hne _ _ Hc1 H1)).
  rewrite (mean_axis0_subject_means _ _
             (select_rows_Forall _ _ 2%Z _ Hwf) (Hne _ _ Hc2 H2)).
  apply pearsonr_pearson_correlation; apply subject_means_nonempty; exact HN.
Qed.






Lemma split_half_samples_result (rng : nat -> list nat) (x : ndarray)
    (n_splits : Z) (mode : string) (r_ : list num) :
  (1 <= n_splits)%Z ->
  mode = "correlation"%string \/ mode = "spearman-brown"%string ->
  split_half_samples rng x n_splits mode = Return r_ ->
  split_half rng x n_splits mode
  = Return (numpy.mean r_,
            ndiv (numpy.std r_) (numpy.sqrt (Fin (IZR n_splits)))).
Proof.
  intros Hn Hmode Hs. apply allowed_mode_in in Hmode. unfold split_half.
  destruct (Z.ltb_spec n_splits 1) as [Hlt|_]; [lia|].
  rewrite Hmode, Hs. reflexivity.
Qed.

(* ================================================================== *)
(** ** Specification of split_half *)

(** C5: [split_half] raises its validation error whenever [n_splits < 1]
    and whenever [mode] is neither 'correlation' nor 'spearman-brown'.
    The error does not depend on the matrix or on the generator: it is
    raised before either is read, and nothing is returned. *)
Theorem split_half_invalid_argument (n_splits : Z) (mode : string) :
  (n_splits < 1)%Z
  \/ (mode <> "correlation"%string /\ mode <> "spearman-brown"%string) ->
  forall rng x,
    split_half rng x n_splits mode
    = Raise (Exception (if (n_splits <? 1)%Z then ExpectedNSplits n_splits
                        else ModeNotSupported mode)).
Proof.
  intros H rng x. unfold split_half.
  destruct (Z.ltb_spec n_splits 1) as [Hlt|Hge]; [reflexivity|].
  destruct H as [Hlt | [Hc Hs]]; [lia|].
  apply String.eqb_neq in Hc, Hs.
  unfold mode_in, allowed_modes. simpl existsb. rewrite Hc, Hs. reflexivity.
Qed.

Lemma split_half_invalid_argument_example :
  ((0 < 1)%Z
   \/ ("bogus"%string <> "correlation"%string
       /\ "bogus"%string <> "spearman-brown"%string))
  /\ forall rng x,
       split_half rng x 0 "bogus" = Raise (Exception (ExpectedNSplits 0)).
Proof.
  assert (H : (0 < 1)%Z
              \/ ("bogus"%string <> "correlation"%string
                  /\ "bogus"%string <> "spearman-brown"%string))
    by (left; lia).
  split; [exact H|].
  apply (split_half_invalid_argument 0 "bogus" H).
Defined.

(** C4: in every trial [i] the label vector holds exactly floor(M/2)
    entries of half 1 and M - floor(M/2) of half 2, and the label array of
    the program after the trial's shuffle carries that vector in every
    subject column; masking and reshaping return exactly the rows of [x]
    that carry each label, in their order, as matrices of floor(M/2) and
    M - floor(M/2) rows of N columns; the body of the loop, run on the
    label array left by the trials before, stores the sample computed
    from these two matrices; and the next shuffle preserves the invariant
    of the label array. *)
Theorem split_half_partition (rng : nat -> list nat) (x : ndarray) (i : nat)
    (mode : string) :
  well_formed x ->
  (forall k, valid_draw (length (rows x)) (rng k)) ->
  mode = "correlation"%string \/ mode = "spearman-brown"%string ->
  let M := length (rows x) in
  let N := ncols x in
  let labels := labels_after rng M (S i) in
  let before := halves_after rng M N i in
  let halves := halves_after rng M N (S i) in
  let x_1 := select_rows labels 1 (values x) in
  let x_2 := select_rows labels 2 (values x) in
  half_labelled M labels
  /\ halves = broadcast N labels
  /\ numpy.reshape (numpy.mask_select (values x) halves 1) ((M / 2)%nat, N)
     = Return x_1
  /\ numpy.reshape (numpy.mask_select (values x) halves 2) ((M - M / 2)%nat, N)
     = Return x_2
  /\ length x_1 = (M / 2)%nat
  /\ length x_2 = (M - M / 2)%nat
  /\ Forall (fun r => length r = N) x_1
  /\ Forall (fun r => length r = N) x_2
  /\ (forall r_,
        trial rng x mode i (before, r_)
        = Return (halves,
                  numpy.setitem r_ i
                    (trial_sample mode
                       (pearsonr (numpy.mean_axis0 N x_1)
                                 (numpy.mean_axis0 N x_2)))))
  /\ (exists r_,
        for_range (trial rng x mode) (seq 0 (S i))
          (initial_halves M N, numpy.zeros (S i))
        = Return (halves, r_))
  /\ half_labelled M (permute (rng (S i)) labels)
  /\ numpy.random.shuffle (rng (S i)) halves
     = broadcast N (permute (rng (S i)) labels).
Proof.
  intros Hwf Hrng Hmode M N labels before halves x_1 x_2.
  apply allowed_mode_in in Hmode.
  pose proof (labels_after_half rng M (S i) Hrng) as Hlab.
  fold labels in Hlab. destruct Hlab as (Hlen & Hc1 & Hc2).
  pose proof (values_Forall x Hwf) as HF. fold N in HF.
  assert (Hvl : length (values x) = length labels).
  { rewrite values_length, Hlen. reflexivity. }
  assert (Hh : halves = broadcast N labels).
  { apply halves_after_broadcast. exact Hrng. }
  assert (Hlab : half_labelled M labels) by (repeat split; auto).
  split; [exact Hlab|].
  split; [exact Hh|].
  rewrite Hh.
  split; [apply reshape_mask_select; auto|].
  split; [apply reshape_mask_select; auto|].
  split; [unfold x_1; rewrite select_rows_length; auto|].
  split; [unfold x_2; rewrite select_rows_length; auto|].
  split; [apply select_rows_Forall; exact HF|].
  split; [apply select_rows_Forall; exact HF|].
  split.
  { intros r_. unfold before.
    rewrite (halves_after_broadcast rng M N i Hrng).
    apply (trial_step rng x mode i (labels_after rng M i) r_ Hwf
             (labels_after_half rng M i Hrng) (Hrng i) Hmode). }
  split.
  { pose proof (for_range_trials rng x mode Hwf Hrng Hmode (S i) 0 0 [] eq_refl)
      as Hloop.
    rewrite Nat.add_0_r in Hloop. cbn [app] in Hloop.
    change (labels_after rng (length (rows x)) 0) with (initial_labels M) in Hloop.
    rewrite <- initial_halves_broadcast in Hloop.
    eexists. exact Hloop. }
  split; [apply permute_half; [exact Hlab | apply Hrng]|].
  apply shuffle_broadcast. rewrite Hlen. apply Hrng.
Qed.

Lemma split_half_partition_example :
  well_formed opposed_x
  /\ (forall k, valid_draw (length (rows opposed_x)) (identity_draws k))
  /\ ("correlation"%string = "correlation"%string
      \/ "correlation"%string = "spearman-brown"%string)
  /\ (let M := length (rows opposed_x) in
      let N := ncols opposed_x in
      let labels := labels_after identity_draws M 1 in
      let before := halves_after identity_draws M N 0 in
      let halves := halves_after identity_draws M N 1 in
      let x_1 := select_rows labels 1 (values opposed_x) in
      let x_2 := select_rows labels 2 (values opposed_x) in
      half_labelled M labels
      /\ halves = broadcast N labels
      /\ numpy.reshape (numpy.mask_select (values opposed_x) halves 1)
           ((M / 2)%nat, N)
         = Return x_1
      /\ numpy.reshape (numpy.mask_select (values opposed_x) halves 2)
           ((M - M / 2)%nat, N)
         = Return x_2
      /\ length x_1 = (M / 2)%nat
      /\ length x_2 = (M - M / 2)%nat
      /\ Forall (fun r => length r = N) x_1
      /\ Forall (fun r => length r = N) x_2
      /\ (forall r_,
            trial identity_draws opposed_x "correlation" 0 (before, r_)
            = Return (halves,
                      numpy.setitem r_ 0
                        (trial_sample "correlation"
                           (pearsonr (numpy.mean_axis0 N x_1)
                                     (numpy.mean_axis0 N x_2)))))
      /\ (exists r_,
            for_range (trial identity_draws opposed_x "correlation") (seq 0 1)
              (initial_halves M N, numpy.zeros 1)
            = Return (halves, r_))
      /\ half_labelled M (permute (identity_draws 1) labels)
      /\ numpy.random.shuffle (identity_draws 1) halves
         = broadcast N (permute (identity_draws 1) labels)).
Proof.
  assert (Hwf : well_formed opposed_x) by (repeat constructor).
  assert (Hrng : forall k, valid_draw (length (rows opposed_x)) (identity_draws k))
    by (intros k; apply Permutation_refl).
  assert (Hmode : "correlation"%string = "correlation"%string
                  \/ "correlation"%string = "spearman-brown"%string)
    by (left; reflexivity).
  split; [exact Hwf|]. split; [exact Hrng|]. split; [exact Hmode|].
  exact (split_half_partition identity_draws opposed_x 0 "correlation"
           Hwf Hrng Hmode).
Defined.

(** C2: for every valid call, the array of samples has one entry per
    trial, and entry [i] comes from the Pearson product-moment correlation
    [r] between the per-subject means, over the rows, of the two row
    groups of trial [i]: it is [r] itself in mode 'correlation' and
    [2*r / (1 + r)] in mode 'spearman-brown'.  The result of the call is
    computed from that array. *)
Theorem split_half_trial_sample (rng : nat -> list nat) (x : ndarray)
    (n_splits : Z) (mode : string) :
  well_formed x ->
  (2 <= length (rows x))%nat -> (2 <= ncols x)%nat ->
  (forall i, valid_draw (length (rows x)) (rng i)) ->
  (1 <= n_splits)%Z ->
  mode = "correlation"%string \/ mode = "spearman-brown"%string ->
  exists r_,
    split_half_samples rng x n_splits mode = Return r_
    /\ split_half rng x n_splits mode
       = Return (numpy.mean r_,
                 ndiv (numpy.std r_) (numpy.sqrt (Fin (IZR n_splits))))
    /\ length r_ = Z.to_nat n_splits
    /\ forall i, (i < Z.to_nat n_splits)%nat ->
         (mode = "correlation"%string ->
          nth i r_ Undef
          = pearson_correlation (subject_means (ncols x) (row_group rng x i 1))
                                (subject_means (ncols x) (row_group rng x i 2)))
         /\ (mode = "spearman-brown"%string ->
             nth i r_ Undef
             = ndiv (nmul (Fin 2)
                       (pearson_correlation
                          (subject_means (ncols x) (row_group rng x i 1))
                          (subject_means (ncols x) (row_group rng x i 2))))
                    (nadd (Fin 1)
                       (pearson_correlation
                          (subject_means (ncols x) (row_group rng x i 1))
                          (subject_means (ncols x) (row_group rng x i 2))))).
Proof.
  intros Hwf HM HN Hrng Hn Hmode.
  pose proof (allowed_mode_in mode Hmode) as Hin.
  exists (trial_samples rng x n_splits mode).
  pose proof (split_half_samples_trials rng x mode Hwf Hrng Hin n_splits) as Hs.
  split; [exact Hs|].
  split; [exact (split_half_samples_result _ _ _ _ _ Hn Hmode Hs)|].
  split; [apply trial_samples_length|].
  intros i Hi. rewrite trial_samples_nth by exact Hi.
  rewrite (trial_pearson_correlation rng x i Hwf HM ltac:(lia) Hrng).
  split; intros ->; reflexivity.
Qed.

Lemma split_half_trial_sample_example :
  well_formed opposed_x
  /\ (2 <= length (rows opposed_x))%nat
  /\ (2 <= ncols opposed_x)%nat
  /\ (forall i, valid_draw (length (rows opposed_x)) (identity_draws i))
  /\ exists r_,
       split_half_samples identity_draws opposed_x 1 "correlation" = Return r_
       /\ split_half identity_draws opposed_x 1 "correlation"
          = Return (numpy.mean r_, ndiv (numpy.std r_) (numpy.sqrt (Fin (IZR 1))))
       /\ length r_ = 1%nat
       /\ nth 0 r_ Undef
          = pearson_correlation
              (subject_means (ncols opposed_x) (row_group identity_draws opposed_x 0 1))
              (subject_means (ncols opposed_x) (row_group identity_draws opposed_x 0 2)).
Proof.
  assert (Hwf : well_formed opposed_x) by (repeat constructor).
  assert (HM : (2 <= length (rows opposed_x))%nat) by (simpl; lia).
  assert (HN : (2 <= ncols opposed_x)%nat) by (simpl; lia).
  assert (Hrng : forall i, valid_draw (length (rows opposed_x)) (identity_draws i))
    by (intros i; apply Permutation_refl).
  repeat (split; [assumption|]).
  destruct (split_half_trial_sample identity_draws opposed_x 1 "correlation"
              Hwf HM HN Hrng ltac:(lia) (or_introl eq_refl))
    as (r_ & H1 & H2 & H3 & H4).
  exists r_. split; [exact H1|]. split; [exact H2|]. split; [exact H3|].
  exact (proj1 (H4 0%nat ltac:(simpl; lia)) eq_refl).
Defined.



Lemma nth_defined_map_Fin (v : list num) :
  (forall i, (i < length v)%nat -> defined (nth i v Undef)) ->
  exists l, v = map Fin l.
Proof.
  intros H. apply all_defined_map_Fin. intros e He.
  destruct (In_nth v e Undef He) as (i & Hi & <-). apply H. exact Hi.
Qed.

Lemma nth_Undef_In (v : list num) (i : nat) :
  (i < length v)%nat -> nth i v Undef = Undef -> In Undef v.
Proof. intros Hi E. rewrite <- E. apply nth_In. exact Hi. Qed.

(** C8, as the program has it: for every valid matrix (M >= 2, N >= 2),
    every [n_splits >= 1] and either mode, [split_half] returns a pair
    whose [sem] is never a negative number: it is a number, at least 0,
    when every trial sample is a number, and it is not a number as soon
    as one trial sample is not.  The trial samples are those of the
    trials' Pearson correlations. *)
Theorem split_half_sem_nonneg (rng : nat -> list nat) (x : ndarray)
    (n_splits : Z) (mode : string) :
  well_formed x ->
  (2 <= length (rows x))%nat -> (2 <= ncols x)%nat ->
  (forall i, valid_draw (length (rows x)) (rng i)) ->
  (1 <= n_splits)%Z ->
  mode = "correlation"%string \/ mode = "spearman-brown"%string ->
  exists r_ r sem,
    split_half_samples rng x n_splits mode = Return r_
    /\ split_half rng x n_splits mode = Return (r, sem)
    /\ (forall i, (i < Z.to_nat n_splits)%nat ->
          nth i r_ Undef = trial_sample mode (trial_correlation rng x i))
    /\ (forall s, sem = Fin s -> 0 <= s)
    /\ ((forall i, (i < Z.to_nat n_splits)%nat -> defined (nth i r_ Undef)) ->
        exists s, sem = Fin s /\ 0 <= s)
    /\ ((exists i, (i < Z.to_nat n_splits)%nat /\ nth i r_ Undef = Undef) ->
        sem = Undef).
Proof.
  intros Hwf HM HN Hrng Hn Hmode.
  exists (trial_samples rng x n_splits mode).
  rewrite (split_half_returns rng x n_splits mode Hwf Hrng Hn Hmode).
  eexists. eexists.
  split; [apply split_half_samples_trials; auto using allowed_mode_in|].
  split; [reflexivity|].
  pose proof (trial_samples_length rng x mode n_splits) as Hlen.
  split.
  { intros i Hi. rewrite trial_samples_nth by exact Hi.
    rewrite (trial_pearson_correlation rng x i Hwf HM ltac:(lia) Hrng).
    reflexivity. }
  split; [|split].
  - intros s Hs. exact (standard_error_nonneg _ _ _ Hn Hs).
  - intros Hdef.
    destruct (nth_defined_map_Fin (trial_samples rng x n_splits mode))
      as (l & ->).
    + rewrite Hlen. exact Hdef.
    + apply standard_error_Fin. exact Hn.
  - intros (i & Hi & E). apply standard_error_Undef.
    apply (nth_Undef_In _ i); [rewrite Hlen; exact Hi | exact E].
Qed.

Lemma opposed_samples :
  trial_samples identity_draws opposed_x 1 "correlation" = [Fin (-1)].
Proof. rewrite trial_samples_one, opposed_pearson. reflexivity. Qed.

Lemma split_half_sem_nonneg_example :
  well_formed opposed_x
  /\ (2 <= length (rows opposed_x))%nat
  /\ (2 <= ncols opposed_x)%nat
  /\ (forall i, valid_draw (length (rows opposed_x)) (identity_draws i))
  /\ exists r sem,
       split_half identity_draws opposed_x 1 "correlation" = Return (r, sem)
       /\ exists s, sem = Fin s /\ 0 <= s.
Proof.
  assert (Hwf : well_formed opposed_x) by (repeat constructor).
  assert (HM : (2 <= length (rows opposed_x))%nat) by (simpl; lia).
  assert (HN : (2 <= ncols opposed_x)%nat) by (simpl; lia).
  assert (Hrng : forall i, valid_draw (length (rows opposed_x)) (identity_draws i))
    by (intros i; apply Permutation_refl).
  repeat (split; [assumption|]).
  destruct (split_half_sem_nonneg identity_draws opposed_x 1 "correlation"
              Hwf HM HN Hrng ltac:(lia) (or_introl eq_refl))
    as (r_ & r & sem & Hs & H & _ & _ & Hdef & _).
  exists r, sem. split; [exact H|]. apply Hdef.
  rewrite (split_half_samples_trials identity_draws opposed_x "correlation"
             Hwf Hrng eq_refl 1) in Hs.
  injection Hs as <-. rewrite opposed_samples.
  intros i Hi. destruct i as [|i]; [|simpl in Hi; lia].
  exists (-1). reflexivity.
Defined.

Lemma constant_split_half (mode : string) :
  mode = "correlation"%string \/ mode = "spearman-brown"%string ->
  split_half identity_draws constant_x 1 mode = Return (Undef, Undef).
Proof.
  intros Hmode.
  rewrite split_half_returns;
    [ | repeat constructor | intros i; apply Permutation_refl | lia | exact Hmode].
  rewrite trial_samples_one, constant_pearson.
  assert (E : trial_sample mode Undef = Undef)
    by (destruct Hmode as [-> | ->]; reflexivity).
  rewrite E, arithmetic_mean_Undef, standard_error_Undef by (left; reflexivity).
  reflexivity.
Qed.

(** C8, as stated, fails: on a valid matrix whose observations are all
    equal the half means are constant, the correlation is not a number,
    and neither is the returned [sem]. *)
Lemma split_half_sem_constant_input :
  well_formed constant_x
  /\ (2 <= length (rows constant_x))%nat
  /\ (2 <= ncols constant_x)%nat
  /\ (forall i, valid_draw (length (rows constant_x)) (identity_draws i))
  /\ split_half identity_draws constant_x 1 "spearman-brown"
     = Return (Undef, Undef)
  /\ ~ (exists r sem,
          split_half identity_draws constant_x 1 "spearman-brown"
          = Return (r, Fin sem)
          /\ 0 <= sem).
Proof.
  pose proof (constant_split_half "spearman-brown" (or_intror eq_refl)) as E.
  split; [repeat constructor|].
  split; [simpl; lia|]. split; [simpl; lia|].
  split; [intros i; apply Permutation_refl|].
  split; [exact E|].
  intros (r & sem & H & _). rewrite E in H. discriminate.
Qed.

Lemma trial_sample_correlation (r : num) : trial_sample "correlation" r = r.
Proof. reflexivity. Qed.

Lemma mean_in_range (n : Z) (l : list R) :
  (1 <= n)%Z -> length l = Z.to_nat n ->
  (forall e, In e l -> -1 <= e <= 1) ->
  -1 <= Rsum l / IZR n <= 1.
Proof.
  intros Hn Hlen Hl. pose proof (IZR_pos n Hn) as Hpos.
  pose proof (Rsum_bounds l Hl) as Hb.
  rewrite Hlen, INR_to_nat in Hb by exact Hn.
  assert (Hi : 0 < / IZR n) by (apply Rinv_0_lt_compat; exact Hpos).
  assert (E : IZR n * / IZR n = 1) by (apply Rinv_r; lra).
  unfold Rdiv. split; nra.
Qed.

(** C9, as the program has it: for every valid matrix (M >= 2, N >= 2) and
    every [n_splits >= 1], in mode 'correlation' the sample of a trial is
    the trial's raw Pearson correlation, which is either not a number or
    lies in [-1, 1]; [split_half] returns an [r] that is a number of
    [-1, 1] when every trial's correlation is a number, and that is not a
    number as soon as one trial's correlation is not. *)
Theorem split_half_correlation_range (rng : nat -> list nat) (x : ndarray)
    (n_splits : Z) :
  well_formed x ->
  (2 <= length (rows x))%nat -> (2 <= ncols x)%nat ->
  (forall i, valid_draw (length (rows x)) (rng i)) ->
  (1 <= n_splits)%Z ->
  exists r_ r sem,
    split_half_samples rng x n_splits "correlation" = Return r_
    /\ split_half rng x n_splits "correlation" = Return (r, sem)
    /\ (forall i, (i < Z.to_nat n_splits)%nat ->
          nth i r_ Undef
          = pearson_correlation (subject_means (ncols x) (row_group rng x i 1))
                                (subject_means (ncols x) (row_group rng x i 2)))
    /\ (forall i rho, (i < Z.to_nat n_splits)%nat ->
          nth i r_ Undef = Fin rho -> -1 <= rho <= 1)
    /\ (forall v, r = Fin v -> -1 <= v <= 1)
    /\ ((forall i, (i < Z.to_nat n_splits)%nat -> defined (nth i r_ Undef)) ->
        exists v, r = Fin v /\ -1 <= v <= 1)
    /\ ((exists i, (i < Z.to_nat n_splits)%nat /\ nth i r_ Undef = Undef) ->
        r = Undef).
Proof.
  intros Hwf HM HN Hrng Hn.
  assert (Hrho : forall i rho, trial_pearson rng x i = Fin rho -> -1 <= rho <= 1).
  { intros i rho H. exact (pearsonr_bounds _ _ _ H). }
  exists (trial_samples rng x n_splits "correlation").
  rewrite (split_half_returns rng x n_splits "correlation" Hwf Hrng Hn
             (or_introl eq_refl)).
  eexists. eexists.
  split; [apply split_half_samples_trials; auto|].
  split; [reflexivity|].
  pose proof (trial_samples_length rng x "correlation" n_splits) as Hlen.
  assert (Hnth : forall i, (i < Z.to_nat n_splits)%nat ->
             nth i (trial_samples rng x n_splits "correlation") Undef
             = trial_pearson rng x i).
  { intros i Hi. rewrite trial_samples_nth by exact Hi. reflexivity. }
  assert (Hrange : forall l,
             trial_samples rng x n_splits "correlation" = map Fin l ->
             -1 <= Rsum l / IZR n_splits <= 1).
  { intros l El. apply mean_in_range; [exact Hn | |].
    - rewrite <- (length_map Fin), <- El. exact Hlen.
    - intros e He. apply (in_map Fin) in He. rewrite <- El in He.
      unfold trial_samples in He. apply in_map_iff in He.
      destruct He as (i & Hi & _). rewrite trial_sample_correlation in Hi.
      exact (Hrho i e Hi). }
  split.
  { intros i Hi. rewrite (Hnth i Hi).
    apply trial_pearson_correlation; auto. lia. }
  split.
  { intros i rho Hi E. rewrite (Hnth i Hi) in E. exact (Hrho i rho E). }
  split; [|split].
  - intros v Hv. destruct (arithmetic_mean_Fin_inv _ _ _ Hv) as (l & El).
    rewrite El, arithmetic_mean_Fin in Hv by exact Hn.
    injection Hv as <-. apply Hrange. exact El.
  - intros Hdef.
    destruct (nth_defined_map_Fin (trial_samples rng x n_splits "correlation"))
      as (l & El).
    + rewrite Hlen. exact Hdef.
    + rewrite El, arithmetic_mean_Fin by exact Hn.
      eexists. split; [reflexivity|]. apply Hrange. exact El.
  - intros (i & Hi & E). apply arithmetic_mean_Undef.
    apply (nth_Undef_In _ i); [rewrite Hlen; exact Hi | exact E].
Qed.

Lemma split_half_correlation_range_example :
  well_formed opposed_x
  /\ (2 <= length (rows opposed_x))%nat
  /\ (2 <= ncols opposed_x)%nat
  /\ (forall i, valid_draw (length (rows opposed_x)) (identity_draws i))
  /\ exists r sem,
       split_half identity_draws opposed_x 1 "correlation" = Return (r, sem)
       /\ exists v, r = Fin v /\ -1 <= v <= 1.
Proof.
  assert (Hwf : well_formed opposed_x) by (repeat constructor).
  assert (HM : (2 <= length (rows opposed_x))%nat) by (simpl; lia).
  assert (HN : (2 <= ncols opposed_x)%nat) by (simpl; lia).
  assert (Hrng : forall i, valid_draw (length (rows opposed_x)) (identity_draws i))
    by (intros i; apply Permutation_refl).
  repeat (split; [assumption|]).
  destruct (split_half_correlation_range identity_draws opposed_x 1
              Hwf HM HN Hrng ltac:(lia))
    as (r_ & r & sem & Hs & H & _ & _ & _ & Hdef & _).
  exists r, sem. split; [exact H|]. apply Hdef.
  rewrite (split_half_samples_trials identity_draws opposed_x "correlation"
             Hwf Hrng eq_refl 1) in Hs.
  injection Hs as <-. rewrite opposed_samples.
  intros i Hi. destruct i as [|i]; [|simpl in Hi; lia].
  exists (-1). reflexivity.
Defined.

(** C9, as stated, fails: on a valid matrix whose observations are all
    equal the trial's correlation is not a number, and the returned [r]
    is no number of [-1, 1]. *)
Lemma split_half_correlation_constant_input :
  well_formed constant_x
  /\ (2 <= length (rows constant_x))%nat
  /\ (2 <= ncols constant_x)%nat
  /\ (forall i, valid_draw (length (rows constant_x)) (identity_draws i))
  /\ trial_pearson identity_draws constant_x 0 = Undef
  /\ split_half identity_draws constant_x 1 "correlation"
     = Return (Undef, Undef)
  /\ ~ (exists r sem,
          split_half identity_draws constant_x 1 "correlation"
          = Return (Fin r, sem)
          /\ -1 <= r <= 1).
Proof.
  pose proof (constant_split_half "correlation" (or_introl eq_refl)) as E.
  split; [repeat constructor|].
  split; [simpl; lia|]. split; [simpl; lia|].
  split; [intros i; apply Permutation_refl|].
  split; [exact constant_pearson|].
  split; [exact E|].
  intros (r & sem & H & _). rewrite E in H. discriminate.
Qed.

(** C10: in mode 'spearman-brown' the sample of a trial is
    [2*r / (1 + r)] with no guard on the divisor: it is a number when the
    trial's correlation [r] is a number other than -1, and it is not a
    number when [r] is -1.  The returned pair is made of numbers only if
    every trial's correlation is a number other than -1; when some
    trial's correlation is -1 the call still returns, without an error,
    a pair that holds no number. *)
Theorem spearman_brown_unguarded (rng : nat -> list nat) (x : ndarray)
    (n_splits : Z) :
  well_formed x ->
  (2 <= length (rows x))%nat -> (2 <= ncols x)%nat ->
  (forall i, valid_draw (length (rows x)) (rng i)) ->
  (1 <= n_splits)%Z ->
  (exists r_,
     split_half_samples rng x n_splits "spearman-brown" = Return r_
     /\ forall i, (i < Z.to_nat n_splits)%nat ->
          nth i r_ Undef
          = ndiv (nmul (Fin 2) (trial_pearson rng x i))
                 (nadd (Fin 1) (trial_pearson rng x i))
          /\ (forall rho, trial_pearson rng x i = Fin rho -> rho <> -1 ->
                nth i r_ Undef = Fin (2 * rho / (1 + rho)))
          /\ (trial_pearson rng x i = Fin (-1) -> nth i r_ Undef = Undef))
  /\ (forall r sem,
        split_half rng x n_splits "spearman-brown" = Return (Fin r, sem) ->
        forall i, (i < Z.to_nat n_splits)%nat ->
          exists rho, trial_pearson rng x i = Fin rho /\ rho <> -1)
  /\ ((exists i, (i < Z.to_nat n_splits)%nat
                 /\ trial_pearson rng x i = Fin (-1)) ->
      split_half rng x n_splits "spearman-brown" = Return (Undef, Undef)).
Proof.
  intros Hwf _ _ Hrng Hn.
  assert (Hin : mode_in "spearman-brown" allowed_modes = true) by reflexivity.
  assert (Hnth : forall i, (i < Z.to_nat n_splits)%nat ->
            nth i (trial_samples rng x n_splits "spearman-brown") Undef
            = ndiv (nmul (Fin 2) (trial_pearson rng x i))
                   (nadd (Fin 1) (trial_pearson rng x i))).
  { intros i Hi. rewrite trial_samples_nth by exact Hi. reflexivity. }
  assert (Hminus : forall i, (i < Z.to_nat n_splits)%nat ->
            trial_pearson rng x i = Fin (-1) ->
            In Undef (trial_samples rng x n_splits "spearman-brown")).
  { intros i Hi E. unfold trial_samples. apply in_map_iff.
    exists i. split; [|apply in_seq; lia].
    unfold trial_sample. rewrite E. cbn [String.eqb Ascii.eqb Bool.eqb].
    cbn [nmul nadd lift2]. apply ndiv_zero. lra. }
  split; [|split].
  - exists (trial_samples rng x n_splits "spearman-brown").
    split; [apply split_half_samples_trials; auto|].
    intros i Hi. rewrite (Hnth i Hi). split; [reflexivity|]. split.
    + intros rho -> Hrho. cbn [nmul nadd lift2]. apply ndiv_Fin. lra.
    + intros ->. cbn [nmul nadd lift2]. apply ndiv_zero. lra.
  - intros r sem H i Hi.
    rewrite (split_half_returns rng x n_splits "spearman-brown" Hwf Hrng Hn
               (or_intror eq_refl)) in H.
    injection H as Hr _.
    destruct (arithmetic_mean_Fin_inv _ _ _ Hr) as (l & El).
    destruct (trial_pearson rng x i) as [rho|] eqn:E.
    + exists rho. split; [reflexivity|]. intros ->.
      pose proof (Hminus i Hi E) as HU. rewrite El in HU.
      apply in_map_iff in HU. destruct HU as (q & Hq & _). discriminate.
    + exfalso. pose proof (Hnth i Hi) as HU. rewrite E in HU. cbn in HU.
      assert (Hi' : (i < length (trial_samples rng x n_splits "spearman-brown"))%nat)
        by (rewrite trial_samples_length; exact Hi).
      pose proof (nth_In _ Undef Hi') as HI. rewrite HU, El in HI.
      apply in_map_iff in HI. destruct HI as (q & Hq & _). discriminate.
  - intros (i & Hi & E).
    rewrite (split_half_returns rng x n_splits "spearman-brown" Hwf Hrng Hn
               (or_intror eq_refl)).
    rewrite arithmetic_mean_Undef, standard_error_Undef by eauto.
    reflexivity.
Qed.

Lemma spearman_brown_unguarded_example :
  well_formed opposed_x
  /\ (2 <= length (rows opposed_x))%nat
  /\ (2 <= ncols opposed_x)%nat
  /\ (forall i, valid_draw (length (rows opposed_x)) (identity_draws i))
  /\ trial_pearson identity_draws opposed_x 0 = Fin (-1)
  /\ split_half identity_draws opposed_x 1 "spearman-brown"
     = Return (Undef, Undef).
Proof.
  assert (Hwf : well_formed opposed_x) by (repeat constructor).
  assert (Hrng : forall i, valid_draw (length (rows opposed_x)) (identity_draws i))
    by (intros i; apply Permutation_refl).
  assert (HM : (2 <= length (rows opposed_x))%nat) by (simpl; lia).
  assert (HN : (2 <= ncols opposed_x)%nat) by (simpl; lia).
  repeat (split; [assumption|]). split; [exact opposed_pearson|].
  apply (spearman_brown_unguarded identity_draws opposed_x 1
           Hwf HM HN Hrng ltac:(lia)).
  exists 0%nat. split; [simpl; lia | exact opposed_pearson].
Defined.

(* ================================================================== *)
(** ** Further properties of test_retest *)

Lemma fisher_two_rows (n : nat) (x0 x1 : list R) :
  (1 <= n)%nat -> length x0 = n -> length x1 = n ->
  test_retest (mk_ndarray n [x0; x1]) "fisher"
  = Return (fisher_formula (mk_ndarray n [x0; x1])).
Proof.
  intros Hn H0 H1. pose proof (two_INR n Hn) as Hn0.
  unfold test_retest, shape, row, values. simpl rows. simpl ncols.
  change (("fisher" =? "fisher")%string) with true. simpl andb. cbv iota.
  simpl nth.
  unfold numpy.add, nadd. rewrite zip_with_Fin, sum_map_Fin.
  rewrite Rsum_combine_plus by congruence.
  rewrite ndiv_Fin by lra.
  rewrite <- (two_pooled_mean n x0 x1).
  rewrite !square_sub_scalar_Fin, !sum_map_Fin.
  cbn [lift2]. rewrite ndiv_Fin by lra.
  rewrite <- (two_pooled_var n x0 x1).
  unfold numpy.sub_scalar, numpy.multiply. rewrite !map_map.
  simpl nsub.
  rewrite <- (map_map (fun a => a - pooled_mean (mk_ndarray n [x0; x1])) Fin x0).
  rewrite <- (map_map (fun a => a - pooled_mean (mk_ndarray n [x0; x1])) Fin x1).
  unfold nmul at 1. rewrite zip_with_Fin, sum_map_Fin.
  rewrite (map_combine_map
             (fun a => a - pooled_mean (mk_ndarray n [x0; x1])) Rmult).
  reflexivity.
Qed.

(** X1: for every 2 x N matrix with N >= 1, the mode 'fisher' returns the
    sum over the subjects of the products of the deviations of the two
    measurements from the pooled mean, divided by N times the pooled
    variance; it is not a number when that variance is zero. *)
Theorem test_retest_fisher (x : ndarray) :
  well_formed x -> length (rows x) = 2%nat -> (1 <= ncols x)%nat ->
  test_retest x "fisher" = Return (fisher_formula x).
Proof.
  intros Hwf HM HN.
  destruct x as [n [|x0 [|x1 [|x2 rest]]]]; try discriminate.
  unfold well_formed in Hwf. cbn [rows ncols] in *.
  inversion Hwf as [|? ? H0 Hwf']; subst.
  inversion Hwf' as [|? ? H1 _]; subst.
  apply fisher_two_rows; auto.
Qed.

Lemma test_retest_fisher_example :
  well_formed example_x
  /\ length (rows example_x) = 2%nat
  /\ (1 <= ncols example_x)%nat
  /\ test_retest example_x "fisher" = Return (fisher_formula example_x).
Proof.
  assert (Hwf : well_formed example_x) by (repeat constructor).
  assert (HM : length (rows example_x) = 2%nat) by reflexivity.
  assert (HN : (1 <= ncols example_x)%nat) by (simpl; lia).
  repeat (split; [assumption|]).
  apply (test_retest_fisher example_x Hwf HM HN).
Defined.

Lemma Rsum_combine_swap (f : R -> R -> R) (u v : list R) :
  (forall a b, f a b = f b a) ->
  Rsum (map (fun p => f (fst p) (snd p)) (combine u v))
  = Rsum (map (fun p => f (fst p) (snd p)) (combine v u)).
Proof.
  intros Hf. revert v.
  induction u as [|a u IH]; intros [|b v]; simpl; try reflexivity.
  rewrite IH, Hf. reflexivity.
Qed.

(** X2: the two measurement occasions are interchangeable in mode
    'fisher': swapping the two rows of a 2 x N matrix does not change the
    result. *)
Theorem test_retest_fisher_swap (n : nat) (x0 x1 : list R) :
  (1 <= n)%nat -> length x0 = n -> length x1 = n ->
  test_retest (mk_ndarray n [x1; x0]) "fisher"
  = test_retest (mk_ndarray n [x0; x1]) "fisher".
Proof.
  intros Hn H0 H1.
  rewrite !fisher_two_rows by assumption.
  assert (Em : pooled_mean (mk_ndarray n [x1; x0])
               = pooled_mean (mk_ndarray n [x0; x1])).
  { rewrite !two_pooled_mean. f_equal. lra. }
  assert (Ev : pooled_var (mk_ndarray n [x1; x0])
               = pooled_var (mk_ndarray n [x0; x1])).
  { rewrite !two_pooled_var, Em. f_equal. lra. }
  unfold fisher_formula, fisher_cross. rewrite Ev, Em.
  cbn [rows ncols nth]. do 3 f_equal.
  apply (Rsum_combine_swap
           (fun a b => (a - pooled_mean (mk_ndarray n [x0; x1]))
                       * (b - pooled_mean (mk_ndarray n [x0; x1])))).
  intros a b. lra.
Qed.

Lemma test_retest_fisher_swap_example :
  (1 <= 3)%nat
  /\ test_retest (mk_ndarray 3 [[11; 13; 16]; [10; 12; 14]]) "fisher"
     = test_retest (mk_ndarray 3 [[10; 12; 14]; [11; 13; 16]]) "fisher".
Proof.
  split; [lia|].
  apply (test_retest_fisher_swap 3 [10; 12; 14] [11; 13; 16]);
    [lia | reflexivity | reflexivity].
Defined.

(** X3: in mode 'harris' a matrix with exactly one measurement row makes
    [n_measurements / float(n_measurements-1)] divide by zero: the call
    raises ZeroDivisionError, whatever the entries. *)
Theorem test_retest_harris_one_row (x : ndarray) :
  length (rows x) = 1%nat ->
  test_retest x "harris" = Raise ZeroDivisionError.
Proof.
  intros HM. unfold test_retest, shape. rewrite HM.
  change (("harris" =? "fisher")%string) with false.
  change (("harris" =? "harris")%string) with true. cbv iota beta.
  simpl andb. cbv iota.
  unfold py_div at 1. simpl INR.
  destruct (Req_EM_T (1 - 1) 0) as [_|Hne]; [reflexivity|].
  exfalso. apply Hne. lra.
Qed.

Lemma test_retest_harris_one_row_example :
  length (rows (mk_ndarray 2 [[1; 2]])) = 1%nat
  /\ test_retest (mk_ndarray 2 [[1; 2]]) "harris" = Raise ZeroDivisionError.
Proof.
  split; [reflexivity|].
  apply (test_retest_harris_one_row (mk_ndarray 2 [[1; 2]]) eq_refl).
Defined.

Lemma ndiv_Undef_r (a : num) : ndiv a Undef = Undef.
Proof. destruct a; reflexivity. Qed.

(** X4: in mode 'harris' a matrix without rows, or with at least two rows
    and no column, divides by [M*N = 0] in numpy only: the call raises
    nothing and returns a value that is not a number. *)
Theorem test_retest_harris_empty (x : ndarray) :
  length (rows x) <> 1%nat ->
  length (rows x) = 0%nat \/ ncols x = 0%nat ->
  test_retest x "harris" = Return Undef.
Proof.
  intros HM1 Hz. unfold test_retest, shape.
  change (("harris" =? "fisher")%string) with false.
  change (("harris" =? "harris")%string) with true. cbv iota beta.
  simpl andb. cbv iota.
  assert (E : INR (length (rows x) * ncols x) = 0).
  { replace (length (rows x) * ncols x)%nat with 0%nat by nia. reflexivity. }
  rewrite !(ndiv_zero _ _ E).
  assert (Hd : INR (length (rows x)) - 1 <> 0).
  { destruct (length (rows x)) as [|[|k]] eqn:EM.
    - simpl. lra.
    - contradiction.
    - rewrite !S_INR. pose proof (pos_INR k). lra. }
  rewrite !py_div_ok by exact Hd. cbn [bind].
  rewrite ndiv_Undef_r. reflexivity.
Qed.

Lemma test_retest_harris_empty_example :
  length (rows (mk_ndarray 3 [])) <> 1%nat
  /\ (length (rows (mk_ndarray 3 [])) = 0%nat \/ ncols (mk_ndarray 3 []) = 0%nat)
  /\ test_retest (mk_ndarray 3 []) "harris" = Return Undef.
Proof.
  assert (H1 : length (rows (mk_ndarray 3 [])) <> 1%nat) by (simpl; lia).
  assert (H2 : length (rows (mk_ndarray 3 [])) = 0%nat
               \/ ncols (mk_ndarray 3 []) = 0%nat) by (left; reflexivity).
  repeat (split; [assumption|]).
  apply (test_retest_harris_empty (mk_ndarray 3 []) H1 H2).
Defined.

(** *** Sums of equal terms *)

Lemma Rsum_map_zero {A : Type} (g : A -> R) (l : list A) :
  (forall a, In a l -> g a = 0) -> Rsum (map g l) = 0.
Proof.
  induction l as [|a l IH]; intros H; simpl; [reflexivity|].
  rewrite IH by (intros b Hb; apply H; right; exact Hb).
  rewrite (H a (or_introl eq_refl)). lra.
Qed.

Lemma Rsum_all_equal (c : R) (l : list R) :
  (forall e, In e l -> e = c) -> Rsum l = INR (length l) * c.
Proof.
  induction l as [|a l IH]; intros H.
  - simpl. lra.
  - change (length (a :: l)) with (S (length l)). rewrite S_INR.
    cbn [Rsum fold_right]. fold (Rsum l).
    rewrite IH by (intros e He; apply H; right; exact He).
    rewrite (H a (or_introl eq_refl)). lra.
Qed.

(* ================================================================== *)
(** ** Further properties of split_half *)

Lemma select_rows_partition {A : Type} (labels : list Z) (a : list A) :
  length a = length labels ->
  Forall (fun l => l = 1%Z \/ l = 2%Z) labels ->
  Permutation (select_rows labels 1 a ++ select_rows labels 2 a) a.
Proof.
  intros Hlen Hlab. revert a Hlen.
  induction Hlab as [|l labels Hl Hlab IH]; intros [|r a] Hlen;
    simpl in *; try discriminate; [constructor|].
  specialize (IH a ltac:(lia)).
  destruct Hl as [-> | ->]; simpl.
  - apply perm_skip. exact IH.
  - apply Permutation_sym, Permutation_cons_app, Permutation_sym. exact IH.
Qed.

Lemma labels_after_Permutation (rng : nat -> list nat) (m k : nat) :
  (forall i, valid_draw m (rng i)) ->
  Permutation (labels_after rng m k) (initial_labels m).
Proof.
  intros Hrng. induction k as [|k IH]; simpl; [apply Permutation_refl|].
  eapply Permutation_trans; [|exact IH].
  apply permute_Permutation.
  destruct (labels_after_half rng m k Hrng) as (-> & _). apply Hrng.
Qed.

Lemma labels_after_tags (rng : nat -> list nat) (m k : nat) :
  (forall i, valid_draw m (rng i)) ->
  Forall (fun l => l = 1%Z \/ l = 2%Z) (labels_after rng m k).
Proof.
  intros Hrng.
  apply (Permutation_Forall (Permutation_sym (labels_after_Permutation rng m k Hrng))).
  unfold initial_labels. apply Forall_app. split; apply Forall_forall;
    intros l Hl; apply repeat_spec in Hl; auto.
Qed.

(** X9: in every trial the two matrices [x_1] and [x_2] that the body of
    the loop forms by masking and reshaping hold every observation row
    exactly once: the rows of [x_1] followed by the rows of [x_2] are a
    permutation of the rows of [x]; the sample the trial stores is
    computed from these two matrices. *)
Theorem split_half_groups_partition (rng : nat -> list nat) (x : ndarray)
    (i : nat) (mode : string) :
  well_formed x ->
  (forall k, valid_draw (length (rows x)) (rng k)) ->
  mode = "correlation"%string \/ mode = "spearman-brown"%string ->
  let M := length (rows x) in
  let N := ncols x in
  exists x_1 x_2,
    numpy.reshape
      (numpy.mask_select (values x) (halves_after rng M N (S i)) 1)
      ((M / 2)%nat, N)
    = Return x_1
    /\ numpy.reshape
         (numpy.mask_select (values x) (halves_after rng M N (S i)) 2)
         ((M - M / 2)%nat, N)
       = Return x_2
    /\ Permutation (x_1 ++ x_2) (values x)
    /\ forall r_,
         trial rng x mode i (halves_after rng M N i, r_)
         = Return (halves_after rng M N (S i),
                   numpy.setitem r_ i
                     (trial_sample mode
                        (pearsonr (numpy.mean_axis0 N x_1)
                                  (numpy.mean_axis0 N x_2)))).
Proof.
  intros Hwf Hrng Hmode M N. apply allowed_mode_in in Hmode.
  destruct (labels_after_half rng M (S i) Hrng) as (Hlen & Hc1 & Hc2).
  pose proof (values_Forall x Hwf) as HF. fold N in HF.
  assert (Hvl : length (values x) = length (labels_after rng M (S i))).
  { rewrite values_length, Hlen. reflexivity. }
  exists (select_rows (labels_after rng M (S i)) 1 (values x)),
         (select_rows (labels_after rng M (S i)) 2 (values x)).
  rewrite !(halves_after_broadcast rng M N) by exact Hrng.
  split; [apply reshape_mask_select; auto|].
  split; [apply reshape_mask_select; auto|].
  split.
  - apply select_rows_partition; [exact Hvl|].
    apply labels_after_tags. exact Hrng.
  - intros r_.
    apply (trial_step rng x mode i (labels_after rng M i) r_ Hwf
             (labels_after_half rng M i Hrng) (Hrng i) Hmode).
Qed.

Lemma split_half_groups_partition_example :
  well_formed opposed_x
  /\ (forall k, valid_draw (length (rows opposed_x)) (identity_draws k))
  /\ ("correlation"%string = "correlation"%string
      \/ "correlation"%string = "spearman-brown"%string)
  /\ exists x_1 x_2,
       numpy.reshape
         (numpy.mask_select (values opposed_x)
            (halves_after identity_draws 2 2 1) 1) (1%nat, 2%nat)
       = Return x_1
       /\ numpy.reshape
            (numpy.mask_select (values opposed_x)
               (halves_after identity_draws 2 2 1) 2) (1%nat, 2%nat)
          = Return x_2
       /\ Permutation (x_1 ++ x_2) (values opposed_x).
Proof.
  assert (Hwf : well_formed opposed_x) by (repeat constructor).
  assert (Hrng : forall k, valid_draw (length (rows opposed_x)) (identity_draws k))
    by (intros k; apply Permutation_refl).
  assert (Hmode : "correlation"%string = "correlation"%string
                  \/ "correlation"%string = "spearman-brown"%string)
    by (left; reflexivity).
  split; [exact Hwf|]. split; [exact Hrng|]. split; [exact Hmode|].
  destruct (split_half_groups_partition identity_draws opposed_x 0 "correlation"
              Hwf Hrng Hmode) as (x_1 & x_2 & H1 & H2 & H3 & _).
  exists x_1, x_2. split; [exact H1|]. split; [exact H2 | exact H3].
Defined.

Lemma trial_samples_In (rng : nat -> list nat) (x : ndarray) (n_splits : Z)
    (mode : string) (i : nat) :
  (i < Z.to_nat n_splits)%nat ->
  In (trial_sample mode (trial_pearson rng x i))
     (trial_samples rng x n_splits mode).
Proof.
  intros Hi. unfold trial_samples.
  apply (in_map (fun i => trial_sample mode (trial_pearson rng x i))).
  apply in_seq. lia.
Qed.

(** X11: the result is all or nothing.  For a valid call, if some trial's
    sample is not a number then neither [r] nor [sem] is; if every
    trial's sample is a number then both are. *)
Theorem split_half_all_or_nothing (rng : nat -> list nat) (x : ndarray)
    (n_splits : Z) (mode : string) :
  well_formed x -> (2 <= ncols x)%nat ->
  (forall i, valid_draw (length (rows x)) (rng i)) ->
  (1 <= n_splits)%Z ->
  mode = "correlation"%string \/ mode = "spearman-brown"%string ->
  ((exists i, (i < Z.to_nat n_splits)%nat
              /\ trial_sample mode (trial_pearson rng x i) = Undef) ->
   split_half rng x n_splits mode = Return (Undef, Undef))
  /\ ((forall i, (i < Z.to_nat n_splits)%nat ->
         defined (trial_sample mode (trial_pearson rng x i))) ->
      exists r sem, split_half rng x n_splits mode = Return (Fin r, Fin sem)).
Proof.
  intros Hwf _ Hrng Hn Hmode.
  rewrite (split_half_returns rng x n_splits mode Hwf Hrng Hn Hmode).
  split.
  - intros (i & Hi & E).
    assert (Hin : In Undef (trial_samples rng x n_splits mode)).
    { rewrite <- E. apply trial_samples_In. exact Hi. }
    rewrite arithmetic_mean_Undef, standard_error_Undef by exact Hin.
    reflexivity.
  - intros Hdef.
    destruct (all_defined_map_Fin (trial_samples rng x n_splits mode))
      as (l & ->).
    + unfold trial_samples. intros e He.
      apply in_map_iff in He. destruct He as (i & <- & Hi).
      apply in_seq in Hi. apply Hdef. lia.
    + rewrite arithmetic_mean_Fin by exact Hn.
      destruct (standard_error_Fin n_splits l Hn) as (s & -> & _).
      eauto.
Qed.

Lemma split_half_all_or_nothing_example :
  well_formed constant_x
  /\ (2 <= ncols constant_x)%nat
  /\ (forall i, valid_draw (length (rows constant_x)) (identity_draws i))
  /\ split_half identity_draws constant_x 4 "correlation"
     = Return (Undef, Undef).
Proof.
  assert (Hwf : well_formed constant_x) by (repeat constructor).
  assert (Hrng : forall i, valid_draw (length (rows constant_x)) (identity_draws i))
    by (intros i; apply Permutation_refl).
  assert (HN : (2 <= ncols constant_x)%nat) by (simpl; lia).
  repeat (split; [assumption|]).
  apply (split_half_all_or_nothing identity_draws constant_x 4 "correlation"
           Hwf HN Hrng ltac:(lia) (or_introl eq_refl)).
  exists 0%nat. split; [simpl; lia|].
  rewrite constant_pearson. reflexivity.
Defined.

(** *** Equal samples, a single split *)

Lemma equal_samples (n : Z) (l : list R) (c : R) :
  (1 <= n)%Z -> length l = Z.to_nat n -> (forall e, In e l -> e = c) ->
  arithmetic_mean n (map Fin l) = Fin c
  /\ standard_error n (map Fin l) = Fin 0.
Proof.
  intros Hn Hlen Hc. pose proof (IZR_pos n Hn) as Hpos.
  assert (Em : Rsum l / IZR n = c).
  { rewrite (Rsum_all_equal c l Hc), Hlen, INR_to_nat by exact Hn.
    field. lra. }
  assert (Ea : arithmetic_mean n (map Fin l) = Fin c).
  { rewrite arithmetic_mean_Fin by exact Hn. rewrite Em. reflexivity. }
  split; [exact Ea|].
  unfold standard_error, population_std. rewrite Ea.
  rewrite map_map. cbn [nsub nmul lift2].
  rewrite <- (map_map (fun s => (s - c) * (s - c)) Fin).
  rewrite sum_map_Fin.
  rewrite (Rsum_map_zero (fun s => (s - c) * (s - c)))
    by (intros e He; rewrite (Hc e He); lra).
  rewrite ndiv_Fin by lra.
  replace (0 / IZR n) with 0 by (unfold Rdiv; lra).
  rewrite nsqrt_Fin, sqrt_0 by lra.
  rewrite nsqrt_Fin by lra.
  pose proof (sqrt_lt_R0 (IZR n) Hpos) as Hs.
  rewrite ndiv_Fin by lra. f_equal. unfold Rdiv. lra.
Qed.

(** X12: with [n_splits = 1] the call returns the sample of its only
    trial as [r], and [sem = 0], whenever that sample is a number. *)
Theorem split_half_single_split (rng : nat -> list nat) (x : ndarray)
    (mode : string) (s : R) :
  well_formed x ->
  (2 <= length (rows x))%nat -> (2 <= ncols x)%nat ->
  (forall i, valid_draw (length (rows x)) (rng i)) ->
  mode = "correlation"%string \/ mode = "spearman-brown"%string ->
  trial_sample mode (trial_pearson rng x 0) = Fin s ->
  split_half rng x 1 mode = Return (Fin s, Fin 0).
Proof.
  intros Hwf _ _ Hrng Hmode Hs.
  rewrite (split_half_returns rng x 1 mode Hwf Hrng ltac:(lia) Hmode).
  rewrite trial_samples_one, Hs.
  change [Fin s] with (map Fin [s]).
  destruct (equal_samples 1 [s] s ltac:(lia) eq_refl) as [Ea Ee].
  { intros e [<- | []]. reflexivity. }
  rewrite Ea, Ee. reflexivity.
Qed.

Lemma spearman_brown_half (r : R) :
  0 <= r <= 1 ->
  exists s, trial_sample "spearman-brown" (Fin r) = Fin s /\ r <= s <= 1.
Proof.
  intros Hr. unfold trial_sample.
  change (("spearman-brown" =? "correlation")%string) with false. cbv iota.
  cbn [nmul nadd lift2]. rewrite ndiv_Fin by lra.
  eexists. split; [reflexivity|].
  assert (Hi : 0 < / (1 + r)) by (apply Rinv_0_lt_compat; lra).
  assert (E : (1 + r) * / (1 + r) = 1) by (apply Rinv_r; lra).
  unfold Rdiv. split; nra.
Qed.

Lemma spearman_brown_le_1 (rho : num) (s : R) :
  (forall r, rho = Fin r -> -1 <= r <= 1) ->
  trial_sample "spearman-brown" rho = Fin s -> s <= 1.
Proof.
  intros Hrho. unfold trial_sample.
  change (("spearman-brown" =? "correlation")%string) with false. cbv iota.
  intros H. apply ndiv_Fin_inv in H.
  destruct H as (u & w & Hu & Hw & Hw0 & ->).
  destruct rho as [r|]; [|discriminate].
  cbn [nmul nadd lift2] in Hu, Hw. injection Hu as <-. injection Hw as <-.
  specialize (Hrho r eq_refl).
  assert (Hi : 0 < / (1 + r)) by (apply Rinv_0_lt_compat; lra).
  assert (E : (1 + r) * / (1 + r) = 1) by (apply Rinv_r; lra).
  unfold Rdiv. nra.
Qed.

Lemma Rsum_le_length (l : list R) :
  (forall e, In e l -> e <= 1) -> Rsum l <= INR (length l).
Proof.
  induction l as [|a l IH]; intros H.
  - simpl. lra.
  - change (length (a :: l)) with (S (length l)). rewrite S_INR.
    cbn [Rsum fold_right]. fold (Rsum l).
    specialize (H a (or_introl eq_refl)) as Ha.
    assert (IH' : Rsum l <= INR (length l))
      by (apply IH; intros e He; apply H; right; exact He).
    lra.
Qed.

(** X13: the Spearman-Brown correction never lowers a correlation
    between 0 and 1 and never exceeds 1: a trial whose correlation [r]
    lies in [0, 1] has a sample in [r, 1]; every sample that is a number
    is at most 1, and so is the returned [r] when it is a number. *)
Theorem split_half_spearman_brown_bound (rng : nat -> list nat) (x : ndarray)
    (n_splits : Z) :
  well_formed x ->
  (2 <= length (rows x))%nat -> (2 <= ncols x)%nat ->
  (forall i, valid_draw (length (rows x)) (rng i)) ->
  (1 <= n_splits)%Z ->
  (forall i r, trial_pearson rng x i = Fin r -> 0 <= r ->
     exists s, trial_sample "spearman-brown" (trial_pearson rng x i) = Fin s
               /\ r <= s <= 1)
  /\ (forall i s,
        trial_sample "spearman-brown" (trial_pearson rng x i) = Fin s -> s <= 1)
  /\ exists r sem,
       split_half rng x n_splits "spearman-brown" = Return (r, sem)
       /\ forall v, r = Fin v -> v <= 1.
Proof.
  intros Hwf _ _ Hrng Hn.
  assert (Hs : forall i s,
             trial_sample "spearman-brown" (trial_pearson rng x i) = Fin s ->
             s <= 1).
  { intros i s H. apply (spearman_brown_le_1 _ _ (fun r E => pearsonr_bounds _ _ r E) H). }
  split; [|split; [exact Hs|]].
  - intros i r E Hr. rewrite E. apply spearman_brown_half.
    pose proof (pearsonr_bounds _ _ _ E). lra.
  - rewrite (split_half_returns rng x n_splits "spearman-brown" Hwf Hrng Hn
               (or_intror eq_refl)).
    eexists. eexists. split; [reflexivity|].
    intros v Hv. destruct (arithmetic_mean_Fin_inv _ _ _ Hv) as (l & El).
    rewrite El, arithmetic_mean_Fin in Hv by exact Hn. injection Hv as <-.
    pose proof (IZR_pos n_splits Hn) as Hpos.
    assert (Hl : Rsum l <= INR (length l)).
    { apply Rsum_le_length. intros e He.
      apply (in_map Fin) in He. rewrite <- El in He.
      unfold trial_samples in He. apply in_map_iff in He.
      destruct He as (i & Hi & _). exact (Hs i e Hi). }
    assert (Hlen : length l = Z.to_nat n_splits).
    { rewrite <- (length_map Fin), <- El. apply trial_samples_length. }
    rewrite Hlen, INR_to_nat in Hl by exact Hn.
    assert (Hi : 0 < / IZR n_splits) by (apply Rinv_0_lt_compat; exact Hpos).
    assert (E : IZR n_splits * / IZR n_splits = 1) by (apply Rinv_r; lra).
    unfold Rdiv. nra.
Qed.

Lemma split_half_spearman_brown_bound_example :
  well_formed example_x
  /\ (2 <= length (rows example_x))%nat
  /\ (2 <= ncols example_x)%nat
  /\ (forall i, valid_draw (length (rows example_x)) (identity_draws i))
  /\ (forall i s,
        trial_sample "spearman-brown" (trial_pearson identity_draws example_x i)
        = Fin s -> s <= 1).
Proof.
  assert (Hwf : well_formed example_x) by (repeat constructor).
  assert (HM : (2 <= length (rows example_x))%nat) by (simpl; lia).
  assert (HN : (2 <= ncols example_x)%nat) by (simpl; lia).
  assert (Hrng : forall i, valid_draw (length (rows example_x)) (identity_draws i))
    by (intros i; apply Permutation_refl).
  repeat (split; [assumption|]).
  apply (split_half_spearman_brown_bound identity_draws example_x 1
           Hwf HM HN Hrng ltac:(lia)).
Defined.

Lemma split_half_single_split_example :
  well_formed opposed_x
  /\ (2 <= length (rows opposed_x))%nat
  /\ (2 <= ncols opposed_x)%nat
  /\ (forall i, valid_draw (length (rows opposed_x)) (identity_draws i))
  /\ trial_sample "correlation" (trial_pearson identity_draws opposed_x 0)
     = Fin (-1)
  /\ split_half identity_draws opposed_x 1 "correlation"
     = Return (Fin (-1), Fin 0).
Proof.
  assert (Hwf : well_formed opposed_x) by (repeat constructor).
  assert (HM : (2 <= length (rows opposed_x))%nat) by (simpl; lia).
  assert (HN : (2 <= ncols opposed_x)%nat) by (simpl; lia).
  assert (Hrng : forall i, valid_draw (length (rows opposed_x)) (identity_draws i))
    by (intros i; apply Permutation_refl).
  assert (Hs : trial_sample "correlation" (trial_pearson identity_draws opposed_x 0)
               = Fin (-1)) by (rewrite opposed_pearson; reflexivity).
  repeat (split; [assumption|]).
  apply (split_half_single_split identity_draws opposed_x "correlation" (-1)
           Hwf HM HN Hrng (or_introl eq_refl) Hs).
Defined.
